(** * Visualizer capture pipeline

    A shallow embedding of src/Visualization/Visualizer/VisualizerRender.cpp:
    [Visualizer::Render], [Visualizer::CaptureScreenImage] and
    [Visualizer::CaptureDepthImage].

    Conventions of the embedding.
    - The arithmetic of the depth capture is embedded twice.  In the first
      embedding [float] and [double] values are rationals ([Q]) and the
      arithmetic on them is exact: it gives the real-number value of the
      source's expressions, leaves the rounding of IEEE arithmetic out, and a
      division by zero yields [0] as in [Qdiv].  It carries the properties
      that do not depend on rounding.  In the second embedding, module
      [Binary64], the values are binary64 numbers and every operation rounds
      as the hardware does; it carries the properties about the values
      written.  Copies of samples keep them syntactically.
    - [int] sizes and loop counters are natural numbers: window sizes are
      never negative, and every subtraction of the source is taken where its
      result is non-negative.
    - [uint8_t] and [uint16_t] samples are integers ([Z]).  Over the
      rationals the conversion of a rounded [double] to [uint16_t] is written
      out as reduction modulo [2^16]; in [Binary64] it is defined on
      [[0, 65535]] only, as in C++.
    - A [std::vector<uint8_t>] accessed through a typed pointer is a list of
      samples of that type; its size in bytes is the number of samples times
      the bytes of one sample.  An access outside of a buffer is an error
      ([None]).
    - OpenGL, the clock, the view control, the renderers and the file writers
      are collaborators: the front buffer is a pair of total pixel planes, the
      files written are collected in a list, and the macro [__APPLE__] is a
      boolean. *)

From Stdlib Require Import ZArith QArith Qround Lqa Lia String Ascii.
From Stdlib Require Import PrimFloat SpecFloat FloatOps.
From stdpp Require Import base option list.

Local Open Scope Q_scope.

(** ** Numeric core of the depth reconstruction, over the rationals *)

Module Depth.

(** [std::round]: to the nearest integer, halfway cases away from zero. *)
Definition round (q : Q) : Z :=
  if Qle_bool 0 q then Qfloor (q + (1 # 2)) else (- Qfloor (- q + (1 # 2)))%Z.

(** [(uint16_t) x] on an integral value: the value itself on [[0, 65535]].
    Outside of that range C++ leaves the conversion of a [double] undefined;
    written out here is the low 16 bits, which is what the usual build stores
    for values up to [2^31 - 1] (beyond, it stores 0). *)
Definition to_uint16 (x : Z) : Z := (x mod 65536)%Z.

Definition INT16_MAX : Z := 32767%Z.

(** The denominator of lines 193-194:
    [z_far + z_near - (2.0 * (double)p_depth[j] - 1.0) * (z_far - z_near)]. *)
Definition z_denominator (z_near z_far d : Q) : Q :=
  z_far + z_near - (2 * d - 1) * (z_far - z_near).

(** Lines 192-194: [double z_depth = 2.0 * z_near * z_far / (...)]. *)
Definition z_depth (z_near z_far d : Q) : Q :=
  2 * z_near * z_far / z_denominator z_near z_far d.

(** Lines 195-196: [std::min((uint16_t)std::round(depth_scale * z_depth),
    (uint16_t)INT16_MAX)]. *)
Definition quantize (depth_scale z : Q) : Z :=
  Z.min (to_uint16 (round (depth_scale * z))) (to_uint16 INT16_MAX).

(** The forward perspective depth mapping the reconstruction inverts; it is
    not part of the source and follows the specification's words:
    [d' = 0.5 * (1 + (z_far + z_near - 2 * z_near * z_far / z_depth)
                     / (z_far - z_near))]. *)
Definition forward_projection (z_near z_far z : Q) : Q :=
  (1 # 2) * (1 + (z_far + z_near - 2 * z_near * z_far / z) / (z_far - z_near)).

End Depth.

(** ** Buffers and loops *)

(** [p[i]] as an rvalue. *)
Definition load {A} (buf : list A) (i : nat) : option A := buf !! i.

(** [p[i] = v]. *)
Definition store {A} (buf : list A) (i : nat) (v : A) : option (list A) :=
  if decide (i < length buf)%nat then Some (<[i:=v]> buf) else None.

(** [memcpy(dst + d, src + s, n)] between two distinct buffers. *)
Definition memcpy {A} (dst : list A) (d : nat) (src : list A) (s n : nat)
  : option (list A) :=
  if decide (d + n ≤ length dst ∧ s + n ≤ length src)%nat
  then Some (take d dst ++ take n (drop s src) ++ drop (d + n) dst)
  else None.

(** [for (int k = start; k < start + count; k++) body], threading the state;
    a failing iteration fails the loop. *)
Fixpoint for_loop_from {S} (start count : nat) (body : nat → S → option S)
  (s : S) : option S :=
  match count with
  | O => Some s
  | Datatypes.S c =>
      s' ← body start s; for_loop_from (Datatypes.S start) c body s'
  end.

(** [for (int k = 0; k < n; k++) body]. *)
Definition for_loop {S} (n : nat) (body : nat → S → option S) (s : S)
  : option S := for_loop_from 0 n body s.

(** ** Images *)

(** Modelled from the spec: the [Image] class of Core/Geometry/Image.h is not
    among the sources.  An image has a width, a height, a channel count, the
    bytes of one channel sample and a buffer; [data_] is the buffer seen
    through a pointer to its sample type, one element per channel sample. *)
Record Image (A : Type) := mkImage {
  width_ : nat;
  height_ : nat;
  num_of_channels_ : nat;
  bytes_per_channel_ : nat;
  data_ : list A
}.
Arguments mkImage {A}.
Arguments width_ {A}.
Arguments height_ {A}.
Arguments num_of_channels_ {A}.
Arguments bytes_per_channel_ {A}.
Arguments data_ {A}.

Definition set_data {A B} (img : Image A) (d : list B) : Image B :=
  mkImage (width_ img) (height_ img) (num_of_channels_ img)
          (bytes_per_channel_ img) d.

(** Modelled from the spec: [Image::BytesPerLine], the row stride,
    width x channel_count x bytes_per_channel. *)
Definition BytesPerLine {A} (img : Image A) : nat :=
  (width_ img * num_of_channels_ img * bytes_per_channel_ img)%nat.

(** [data_.size()], in bytes. *)
Definition data_size {A} (img : Image A) : nat :=
  (length (data_ img) * bytes_per_channel_ img)%nat.

(** Modelled from the spec: [Image::PrepareImage], which sets the four
    parameters and allocates [row_stride * height] bytes; a fresh buffer is
    zero ("leave the output as 0"). *)
Definition PrepareImage {A} (zero : A)
  (width height num_of_channels bytes_per_channel : nat) : Image A :=
  mkImage width height num_of_channels bytes_per_channel
          (replicate (width * height * num_of_channels) zero).

(** The element a typed pointer [(T * )(data_.data() + byte_offset)] starts
    at. *)
Definition typed_offset {A} (img : Image A) (byte_offset : nat) : nat :=
  (byte_offset / bytes_per_channel_ img)%nat.

(** ** The OpenGL front buffer *)

Record RGB := mkRGB { red : Z; green : Z; blue : Z }.

(** Both planes are indexed by window coordinates [x] (column) and [y] (row),
    row [0] being the bottom row. *)
Record FrameBuffer := mkFrameBuffer {
  color_at : nat → nat → RGB;
  depth_at : nat → nat → Q
}.

(** The samples [glReadPixels(x, y, width, height, ...)] transfers, with
    [GL_PACK_ALIGNMENT] 1 (set in [InitOpenGL]): row after row from row [y]
    upwards, each row from column [x] rightwards. *)
Definition read_block {A} (px : nat → nat → list A) (x y width height : nat)
  : list A :=
  flat_map (λ r, flat_map (λ c, px c r) (seq x width)) (seq y height).

(** The transfer lands at the start of the destination. *)
Definition write_pixels {A} (dst src : list A) : option (list A) :=
  if decide (length src ≤ length dst)%nat
  then Some (src ++ drop (length src) dst) else None.

(** [glReadPixels(x, y, w, h, GL_RGB, GL_UNSIGNED_BYTE, dst)]. *)
Definition glReadPixels_RGB (fb : FrameBuffer) (x y width height : nat)
  (dst : list Z) : option (list Z) :=
  write_pixels dst
    (read_block (λ c r, let p := color_at fb c r in [red p; green p; blue p])
                x y width height).

(** [glReadPixels(x, y, w, h, GL_DEPTH_COMPONENT, GL_FLOAT, dst)]. *)
Definition glReadPixels_DEPTH (fb : FrameBuffer) (x y width height : nat)
  (dst : list Q) : option (list Q) :=
  write_pixels dst (read_block (λ c r, [depth_at fb c r]) x y width height).

(** ** The visualizer *)

(** [std::string::empty]. *)
Definition empty (s : string) : bool :=
  match s with EmptyString => true | String _ _ => false end.

Section Visualizer.

(** Collaborators that are outside of this file: the camera parameter types
    and the string [GetCurrentTimeStamp()] returns. *)
Variables Intrinsic Extrinsic : Type.
Variable GetCurrentTimeStamp : string.

(** Modelled from the spec: the [ViewControl] class is not among the sources.
    The capture functions consult the window size, which is fixed during a
    capture, and the view: the near and far clip distances and the camera
    parameters [ConvertToPinholeCameraParameters] yields. *)
Record View := mkView {
  z_near_ : Q;
  z_far_ : Q;
  pinhole_ : Intrinsic * Extrinsic
}.

Record ViewControl := mkViewControl {
  GetWindowWidth : nat;
  GetWindowHeight : nat;
  view_ : View
}.

Definition GetZNear (vc : ViewControl) : Q := z_near_ (view_ vc).
Definition GetZFar (vc : ViewControl) : Q := z_far_ (view_ vc).
Definition ConvertToPinholeCameraParameters (vc : ViewControl)
  : Intrinsic * Extrinsic := pinhole_ (view_ vc).

(** Two more collaborators: the view [SetViewMatrices] computes from the
    current state, and what the registered renderers draw for a view. *)
Variable SetViewMatrices : ViewControl → View.
Variable draw : ViewControl → FrameBuffer.

Record PinholeCameraTrajectory := mkTrajectory {
  intrinsic_ : Intrinsic;
  extrinsic_ : list Extrinsic
}.

Record Visualizer := mkVisualizer {
  view_control_ptr_ : ViewControl;
  is_redraw_required_ : bool;
  front_buffer : FrameBuffer
}.

(** The files a capture writes, in order. *)
Inductive FileWrite :=
| WriteImage (filename : string) (image : Image Z)
| WriteIJsonConvertible (filename : string)
    (trajectory : PinholeCameraTrajectory).

(** Lines 59-75: the view matrices are set, the renderers draw the view and
    the buffers are swapped, which makes the drawing the front buffer. *)
Definition Render (v : Visualizer) : Visualizer :=
  let vc := view_control_ptr_ v in
  let vc := mkViewControl (GetWindowWidth vc) (GetWindowHeight vc)
                          (SetViewMatrices vc) in
  mkVisualizer vc (is_redraw_required_ v) (draw vc).

(** Lines 96-99 and 143-146. *)
Definition render_if (do_render : bool) (v : Visualizer) : Visualizer :=
  if do_render
  then let v := Render v in
       mkVisualizer (view_control_ptr_ v) false (front_buffer v)
  else v.

(** Lines 86-92 and 132-138: the image file name and the camera file name. *)
Definition capture_names (prefix_png prefix_camera filename : string)
  : string * string :=
  if empty filename
  then let timestamp := GetCurrentTimeStamp in
       (String.append prefix_png (String.append timestamp ".png"),
        String.append prefix_camera (String.append timestamp ".json"))
  else (filename, EmptyString).

(** Lines 119-126 and 202-209: a trajectory of one pose, written when a camera
    file name was made. *)
Definition write_camera (camera_filename : string) (v : Visualizer)
  : list FileWrite :=
  if negb (empty camera_filename)
  then let '(i, e) := ConvertToPinholeCameraParameters (view_control_ptr_ v) in
       let trajectory := mkTrajectory i [e] in
       [WriteIJsonConvertible camera_filename trajectory]
  else [].

(** Lines 110-115: the rows of [screen_image] copied in reverse order. *)
Definition flip_rows (screen_image png_image : Image Z) : option (Image Z) :=
  let bytes_per_line := BytesPerLine screen_image in
  for_loop (height_ screen_image)
    (λ i png,
       d ← memcpy (data_ png) (bytes_per_line * i)
                  (data_ screen_image)
                  (bytes_per_line * (height_ screen_image - i - 1))
                  bytes_per_line;
       Some (set_data png d))
    png_image.

(** Lines 93-115: the visualizer after the optional rendering, the staging
    image and the image to be written. *)
Definition screen_images (v : Visualizer) (do_render : bool)
  : option (Visualizer * Image Z * Image Z) :=
  let screen_image :=
    PrepareImage 0%Z (GetWindowWidth (view_control_ptr_ v))
                 (GetWindowHeight (view_control_ptr_ v)) 3 1 in
  let v := render_if do_render v in
  let vc := view_control_ptr_ v in
  d ← glReadPixels_RGB (front_buffer v) 0 0 (GetWindowWidth vc)
                       (GetWindowHeight vc) (data_ screen_image);
  let screen_image := set_data screen_image d in
  let png_image :=
    PrepareImage 0%Z (GetWindowWidth vc) (GetWindowHeight vc) 3 1 in
  png_image ← flip_rows screen_image png_image;
  Some (v, screen_image, png_image).

(** Lines 83-127. *)
Definition CaptureScreenImage (v : Visualizer) (filename : string)
  (do_render : bool) : option (Visualizer * list FileWrite) :=
  let '(png_filename, camera_filename) :=
    capture_names "ScreenCapture_" "ScreenCamera_" filename in
  '(v, _, png_image) ← screen_images v do_render;
  Some (v, WriteImage png_filename png_image :: write_camera camera_filename v).

(** Lines 162-167: one [glReadPixels] into [float_buffer], then the copy of
    [float_buffer] into column [j] of [p]. *)
Definition read_column (fb : FrameBuffer) (depth_image : Image Q) (j : nat)
  (st : list Q * list Q) : option (list Q * list Q) :=
  let '(float_buffer, p) := st in
  float_buffer ←
    glReadPixels_DEPTH fb j 0 1 (width_ depth_image) float_buffer;
  p ← for_loop (height_ depth_image)
        (λ i p,
           x ← load float_buffer i;
           store p (i * width_ depth_image + j) x)
        p;
  Some (float_buffer, p).

(** Lines 159-168, the [__APPLE__] branch: the depth plane read column by
    column through [float_buffer]. *)
Definition read_depth_columns (fb : FrameBuffer) (depth_image : Image Q)
  : option (Image Q) :=
  let float_buffer := replicate (height_ depth_image) (0 : Q) in
  let p := data_ depth_image in
  '(_, p) ← for_loop (width_ depth_image) (read_column fb depth_image)
                     (float_buffer, p);
  Some (set_data depth_image p).

(** Lines 171-172, the default branch: one block. *)
Definition read_depth_block (fb : FrameBuffer) (depth_image : Image Q)
  : option (Image Q) :=
  d ← glReadPixels_DEPTH fb 0 0 (width_ depth_image) (height_ depth_image)
                         (data_ depth_image);
  Some (set_data depth_image d).

(** Lines 149-173; [apple] is the value of the macro [__APPLE__]. *)
Definition read_depth (apple : bool) (fb : FrameBuffer) (depth_image : Image Q)
  : option (Image Q) :=
  if apple then read_depth_columns fb depth_image
  else read_depth_block fb depth_image.

(** Lines 189-196: one sample; [continue] leaves the image as it is. *)
Definition convert_pixel (depth_scale z_near z_far : Q) (depth_image : Image Q)
  (p_depth p_png j : nat) (png : Image Z) : option (Image Z) :=
  d ← load (data_ depth_image) (p_depth + j);
  if Qeq_bool d 1 then Some png
  else
    let z_depth := Depth.z_depth z_near z_far d in
    s ← store (data_ png) (p_png + j) (Depth.quantize depth_scale z_depth);
    Some (set_data png s).

(** Lines 184-197: line [i] of the output from line [height_ - i - 1] of the
    depth image. *)
Definition convert_line (depth_scale z_near z_far : Q) (depth_image : Image Q)
  (i : nat) (png : Image Z) : option (Image Z) :=
  let p_depth :=
    typed_offset depth_image
      (BytesPerLine depth_image * (height_ depth_image - i - 1)) in
  let p_png := typed_offset png (BytesPerLine png * i) in
  for_loop (width_ depth_image)
    (convert_pixel depth_scale z_near z_far depth_image p_depth p_png) png.

(** Lines 183-198: flip and conversion in one pass. *)
Definition convert_depth (depth_scale z_near z_far : Q)
  (depth_image : Image Q) (png_image : Image Z) : option (Image Z) :=
  for_loop (height_ depth_image)
    (convert_line depth_scale z_near z_far depth_image) png_image.

(** Lines 139-198: the visualizer after the optional rendering, the staging
    image and the image to be written. *)
Definition depth_images (apple : bool) (v : Visualizer) (do_render : bool)
  (depth_scale : Q) : option (Visualizer * Image Q * Image Z) :=
  let depth_image :=
    PrepareImage (0 : Q) (GetWindowWidth (view_control_ptr_ v))
                 (GetWindowHeight (view_control_ptr_ v)) 1 4 in
  let v := render_if do_render v in
  let vc := view_control_ptr_ v in
  depth_image ← read_depth apple (front_buffer v) depth_image;
  let z_near := GetZNear vc in
  let z_far := GetZFar vc in
  let png_image :=
    PrepareImage 0%Z (GetWindowWidth vc) (GetWindowHeight vc) 1 2 in
  png_image ← convert_depth depth_scale z_near z_far depth_image png_image;
  Some (v, depth_image, png_image).

(** Lines 129-210. *)
Definition CaptureDepthImage (apple : bool) (v : Visualizer) (filename : string)
  (do_render : bool) (depth_scale : Q) : option (Visualizer * list FileWrite) :=
  let '(png_filename, camera_filename) :=
    capture_names "DepthCapture_" "DepthCamera_" filename in
  '(v, _, png_image) ← depth_images apple v do_render depth_scale;
  Some (v, WriteImage png_filename png_image :: write_camera camera_filename v).

(** [ViewControl::Reset] is a further collaborator: the view it resets to. *)
Variable Reset : ViewControl → View.

(** Lines 77-81. *)
Definition ResetViewPoint (v : Visualizer) : Visualizer :=
  let vc := view_control_ptr_ v in
  let vc := mkViewControl (GetWindowWidth vc) (GetWindowHeight vc) (Reset vc) in
  mkVisualizer vc true (front_buffer v).

End Visualizer.

Arguments mkView {Intrinsic Extrinsic}.
Arguments z_near_ {Intrinsic Extrinsic}.
Arguments z_far_ {Intrinsic Extrinsic}.
Arguments pinhole_ {Intrinsic Extrinsic}.
Arguments mkViewControl {Intrinsic Extrinsic}.
Arguments view_ {Intrinsic Extrinsic}.
Arguments GetWindowWidth {Intrinsic Extrinsic}.
Arguments GetWindowHeight {Intrinsic Extrinsic}.
Arguments GetZNear {Intrinsic Extrinsic}.
Arguments GetZFar {Intrinsic Extrinsic}.
Arguments ConvertToPinholeCameraParameters {Intrinsic Extrinsic}.
Arguments mkTrajectory {Intrinsic Extrinsic}.
Arguments mkVisualizer {Intrinsic Extrinsic}.
Arguments view_control_ptr_ {Intrinsic Extrinsic}.
Arguments is_redraw_required_ {Intrinsic Extrinsic}.
Arguments front_buffer {Intrinsic Extrinsic}.
Arguments WriteImage {Intrinsic Extrinsic}.
Arguments WriteIJsonConvertible {Intrinsic Extrinsic}.
Arguments Render {Intrinsic Extrinsic}.
Arguments render_if {Intrinsic Extrinsic}.
Arguments write_camera {Intrinsic Extrinsic}.
Arguments screen_images {Intrinsic Extrinsic}.
Arguments CaptureScreenImage {Intrinsic Extrinsic}.
Arguments depth_images {Intrinsic Extrinsic}.
Arguments CaptureDepthImage {Intrinsic Extrinsic}.
Arguments ResetViewPoint {Intrinsic Extrinsic}.

(** ** The depth capture in binary64

    The same lines with [float] and [double] as IEEE binary64 numbers, every
    operation rounded to nearest even, no fused multiply-add.  A [float] of
    the depth plane is the [double] it converts to.  Where C++ leaves the
    conversion to [uint16_t] undefined (a rounded value outside of
    [[0, 65535]], an infinity, a NaN) the conversion is an error ([None]),
    like an access outside of a buffer. *)

Module Binary64.

(** The denominator of lines 193-194. *)
Definition z_denominator (z_near z_far d : float) : float :=
  (z_far + z_near - (2 * d - 1) * (z_far - z_near))%float.

(** Lines 192-194. *)
Definition z_depth (z_near z_far d : float) : float :=
  (2 * z_near * z_far / z_denominator z_near z_far d)%float.

(** The rational a finite binary64 number stands for. *)
Definition to_Q (x : float) : option Q :=
  match Prim2SF x with
  | S754_zero _ => Some 0
  | S754_finite s m e =>
      Some ((if s then - inject_Z (Z.pos m) else inject_Z (Z.pos m)) * 2 ^ e)
  | _ => None
  end.

(** [std::round], as the integer it returns: the nearest one, halfway cases
    away from zero; there is none for an infinity or a NaN. *)
Definition round (x : float) : option Z :=
  match Prim2SF x with
  | S754_zero _ => Some 0%Z
  | S754_finite s m e =>
      let magnitude :=
        if (0 <=? e)%Z then (Z.pos m * 2 ^ e)%Z
        else ((Z.pos m + 2 ^ (- e - 1)) / 2 ^ (- e))%Z in
      Some (if s then (- magnitude)%Z else magnitude)
  | _ => None
  end.

(** [(uint16_t) x] for an integral [x]: defined where [x] fits. *)
Definition to_uint16 (x : Z) : option Z :=
  if (0 <=? x)%Z && (x <=? 65535)%Z then Some x else None.

(** Lines 195-196. *)
Definition quantize (depth_scale z : float) : option Z :=
  r ← round (depth_scale * z)%float;
  a ← to_uint16 r;
  b ← to_uint16 Depth.INT16_MAX;
  Some (Z.min a b).

(** Lines 189-196 for one raw sample: what the output sample becomes, [old]
    being what it was. *)
Definition converted (depth_scale z_near z_far d : float) (old : Z)
  : option Z :=
  if (d =? 1)%float then Some old
  else quantize depth_scale (z_depth z_near z_far d).

Record FrameBuffer := mkFrameBuffer {
  color_at : nat → nat → RGB;
  depth_at : nat → nat → float
}.

(** [glReadPixels(x, y, w, h, GL_DEPTH_COMPONENT, GL_FLOAT, dst)]. *)
Definition glReadPixels_DEPTH (fb : FrameBuffer) (x y width height : nat)
  (dst : list float) : option (list float) :=
  write_pixels dst (read_block (λ c r, [depth_at fb c r]) x y width height).

Section Visualizer.

Variables Intrinsic Extrinsic : Type.
Variable GetCurrentTimeStamp : string.

(** Modelled from the spec: the view control, as before, with binary64 clip
    distances. *)
Record View := mkView {
  z_near_ : float;
  z_far_ : float;
  pinhole_ : Intrinsic * Extrinsic
}.

Record ViewControl := mkViewControl {
  GetWindowWidth : nat;
  GetWindowHeight : nat;
  view_ : View
}.

Definition GetZNear (vc : ViewControl) : float := z_near_ (view_ vc).
Definition GetZFar (vc : ViewControl) : float := z_far_ (view_ vc).
Definition ConvertToPinholeCameraParameters (vc : ViewControl)
  : Intrinsic * Extrinsic := pinhole_ (view_ vc).

Variable SetViewMatrices : ViewControl → View.
Variable draw : ViewControl → FrameBuffer.

Record Visualizer := mkVisualizer {
  view_control_ptr_ : ViewControl;
  is_redraw_required_ : bool;
  front_buffer : FrameBuffer
}.

(** Lines 59-75. *)
Definition Render (v : Visualizer) : Visualizer :=
  let vc := view_control_ptr_ v in
  let vc := mkViewControl (GetWindowWidth vc) (GetWindowHeight vc)
                          (SetViewMatrices vc) in
  mkVisualizer vc (is_redraw_required_ v) (draw vc).

(** Lines 143-146. *)
Definition render_if (do_render : bool) (v : Visualizer) : Visualizer :=
  if do_render
  then let v := Render v in
       mkVisualizer (view_control_ptr_ v) false (front_buffer v)
  else v.

(** Lines 202-209. *)
Definition write_camera (camera_filename : string) (v : Visualizer)
  : list (FileWrite Intrinsic Extrinsic) :=
  if negb (empty camera_filename)
  then let '(i, e) := ConvertToPinholeCameraParameters (view_control_ptr_ v) in
       let trajectory := mkTrajectory i [e] in
       [WriteIJsonConvertible camera_filename trajectory]
  else [].

(** Lines 162-167. *)
Definition read_column (fb : FrameBuffer) (depth_image : Image float) (j : nat)
  (st : list float * list float) : option (list float * list float) :=
  let '(float_buffer, p) := st in
  float_buffer ←
    glReadPixels_DEPTH fb j 0 1 (width_ depth_image) float_buffer;
  p ← for_loop (height_ depth_image)
        (λ i p,
           x ← load float_buffer i;
           store p (i * width_ depth_image + j) x)
        p;
  Some (float_buffer, p).

(** Lines 159-168, the [__APPLE__] branch. *)
Definition read_depth_columns (fb : FrameBuffer) (depth_image : Image float)
  : option (Image float) :=
  let float_buffer := replicate (height_ depth_image) 0%float in
  let p := data_ depth_image in
  '(_, p) ← for_loop (width_ depth_image) (read_column fb depth_image)
                     (float_buffer, p);
  Some (set_data depth_image p).

(** Lines 171-172, the default branch. *)
Definition read_depth_block (fb : FrameBuffer) (depth_image : Image float)
  : option (Image float) :=
  d ← glReadPixels_DEPTH fb 0 0 (width_ depth_image) (height_ depth_image)
                         (data_ depth_image);
  Some (set_data depth_image d).

(** Lines 149-173. *)
Definition read_depth (apple : bool) (fb : FrameBuffer)
  (depth_image : Image float) : option (Image float) :=
  if apple then read_depth_columns fb depth_image
  else read_depth_block fb depth_image.

(** Lines 189-196. *)
Definition convert_pixel (depth_scale z_near z_far : float)
  (depth_image : Image float) (p_depth p_png j : nat) (png : Image Z)
  : option (Image Z) :=
  d ← load (data_ depth_image) (p_depth + j);
  if (d =? 1)%float then Some png
  else
    let z_depth := z_depth z_near z_far d in
    x ← quantize depth_scale z_depth;
    s ← store (data_ png) (p_png + j) x;
    Some (set_data png s).

(** Lines 184-197. *)
Definition convert_line (depth_scale z_near z_far : float)
  (depth_image : Image float) (i : nat) (png : Image Z) : option (Image Z) :=
  let p_depth :=
    typed_offset depth_image
      (BytesPerLine depth_image * (height_ depth_image - i - 1)) in
  let p_png := typed_offset png (BytesPerLine png * i) in
  for_loop (width_ depth_image)
    (convert_pixel depth_scale z_near z_far depth_image p_depth p_png) png.

(** Lines 183-198. *)
Definition convert_depth (depth_scale z_near z_far : float)
  (depth_image : Image float) (png_image : Image Z) : option (Image Z) :=
  for_loop (height_ depth_image)
    (convert_line depth_scale z_near z_far depth_image) png_image.

(** Lines 139-173: the visualizer after the optional rendering and the raw
    depth image. *)
Definition depth_readback (apple : bool) (v : Visualizer) (do_render : bool)
  : option (Visualizer * Image float) :=
  let depth_image :=
    PrepareImage 0%float (GetWindowWidth (view_control_ptr_ v))
                 (GetWindowHeight (view_control_ptr_ v)) 1 4 in
  let v := render_if do_render v in
  depth_image ← read_depth apple (front_buffer v) depth_image;
  Some (v, depth_image).

(** Lines 139-198: the raw depth image and the image to be written. *)
Definition depth_images (apple : bool) (v : Visualizer) (do_render : bool)
  (depth_scale : float) : option (Visualizer * Image float * Image Z) :=
  '(v, depth_image) ← depth_readback apple v do_render;
  let vc := view_control_ptr_ v in
  let z_near := GetZNear vc in
  let z_far := GetZFar vc in
  let png_image :=
    PrepareImage 0%Z (GetWindowWidth vc) (GetWindowHeight vc) 1 2 in
  png_image ← convert_depth depth_scale z_near z_far depth_image png_image;
  Some (v, depth_image, png_image).

(** Lines 129-210. *)
Definition CaptureDepthImage (apple : bool) (v : Visualizer) (filename : string)
  (do_render : bool) (depth_scale : float)
  : option (Visualizer * list (FileWrite Intrinsic Extrinsic)) :=
  let '(png_filename, camera_filename) :=
    capture_names GetCurrentTimeStamp "DepthCapture_" "DepthCamera_"
                  filename in
  '(v, _, png_image) ← depth_images apple v do_render depth_scale;
  Some (v, WriteImage png_filename png_image :: write_camera camera_filename v).

End Visualizer.

Arguments mkView {Intrinsic Extrinsic}.
Arguments z_near_ {Intrinsic Extrinsic}.
Arguments z_far_ {Intrinsic Extrinsic}.
Arguments pinhole_ {Intrinsic Extrinsic}.
Arguments mkViewControl {Intrinsic Extrinsic}.
Arguments view_ {Intrinsic Extrinsic}.
Arguments GetWindowWidth {Intrinsic Extrinsic}.
Arguments GetWindowHeight {Intrinsic Extrinsic}.
Arguments GetZNear {Intrinsic Extrinsic}.
Arguments GetZFar {Intrinsic Extrinsic}.
Arguments ConvertToPinholeCameraParameters {Intrinsic Extrinsic}.
Arguments mkVisualizer {Intrinsic Extrinsic}.
Arguments view_control_ptr_ {Intrinsic Extrinsic}.
Arguments is_redraw_required_ {Intrinsic Extrinsic}.
Arguments front_buffer {Intrinsic Extrinsic}.
Arguments Render {Intrinsic Extrinsic}.
Arguments render_if {Intrinsic Extrinsic}.
Arguments write_camera {Intrinsic Extrinsic}.
Arguments depth_readback {Intrinsic Extrinsic}.
Arguments depth_images {Intrinsic Extrinsic}.
Arguments CaptureDepthImage {Intrinsic Extrinsic}.

(** The raw samples of an image all convert: lines 195-196 are defined for
    each of them that is not 1. *)
Definition convertible (depth_scale z_near z_far : float)
  (depth_image : Image float) : Prop :=
  Forall (λ d, is_Some (converted depth_scale z_near z_far d 0))
         (data_ depth_image).

(** [png_image] is the image a depth capture writes and [depth_image] the
    raw depth plane it was converted from. *)
Definition captures_depth {I E} (timestamp : string)
  (SetViewMatrices : ViewControl I E → View I E)
  (draw : ViewControl I E → FrameBuffer) (apple : bool) (v : Visualizer I E)
  (filename : string) (do_render : bool) (depth_scale : float)
  (depth_image : Image float) (png_image : Image Z) : Prop :=
  let v' := render_if SetViewMatrices draw do_render v in
  depth_images SetViewMatrices draw apple v do_render depth_scale
  = Some (v', depth_image, png_image) ∧
  ∃ name rest,
    CaptureDepthImage timestamp SetViewMatrices draw apple v filename
                      do_render depth_scale
    = Some (v', WriteImage name png_image :: rest).

(** A window of two by two pixels; the left column shows no surface, the right
    column a surface at normalized depth one half.  Rendering sets the clip
    distances to 0.75 and 4.25. *)
Definition example_front : FrameBuffer :=
  mkFrameBuffer (λ _ _, mkRGB 0 0 0)
                (λ x _, match x with O => 1%float | _ => 0.5%float end).

Definition example_view : View unit unit :=
  mkView 0.75%float 4.25%float (tt, tt).

Definition example_matrices (_ : ViewControl unit unit) : View unit unit :=
  example_view.

Definition example_draw (_ : ViewControl unit unit) : FrameBuffer :=
  example_front.

Definition example_visualizer : Visualizer unit unit :=
  mkVisualizer (mkViewControl 2 2 (mkView 1%float 10%float (tt, tt))) true
               example_front.

End Binary64.

(** ** Accessors used to state the properties *)

(** The sample of a one-channel image at a row and a column. *)
Definition pixel {A} (img : Image A) (row col : nat) : option A :=
  data_ img !! (row * width_ img + col)%nat.

(** The bytes of one line of an image of one-byte samples. *)
Definition line (img : Image Z) (row : nat) : list Z :=
  take (BytesPerLine img) (drop (BytesPerLine img * row) (data_ img)).

(** What the conversion stores for a raw sample [d], [old] being the sample
    the output held before. *)
Definition converted (depth_scale z_near z_far d : Q) (old : option Z)
  : option Z :=
  if Qeq_bool d 1 then old
  else Some (Depth.quantize depth_scale (Depth.z_depth z_near z_far d)).

(** Channel [k] of a colour: red, green, blue. *)
Definition channel (p : RGB) (k : nat) : option Z :=
  [red p; green p; blue p] !! k.

(** Two images of the same dimensions and sample layout. *)
Definition same_shape {A B} (a : Image A) (b : Image B) : Prop :=
  width_ a = width_ b ∧ height_ a = height_ b ∧
  num_of_channels_ a = num_of_channels_ b ∧
  bytes_per_channel_ a = bytes_per_channel_ b.

(** The image files among the files written. *)
Definition written_images {I E} (fs : list (FileWrite I E))
  : list (string * Image Z) :=
  flat_map (λ f, match f with
                 | WriteImage n img => [(n, img)]
                 | WriteIJsonConvertible _ _ => []
                 end) fs.

(** [png_image] is the image a depth capture writes and [depth_image] the
    raw depth plane it was converted from. *)
Definition captures_depth {I E} (timestamp : string)
  (SetViewMatrices : ViewControl I E → View I E)
  (draw : ViewControl I E → FrameBuffer) (apple : bool) (v : Visualizer I E)
  (filename : string) (do_render : bool) (depth_scale : Q)
  (depth_image : Image Q) (png_image : Image Z) : Prop :=
  let v' := render_if SetViewMatrices draw do_render v in
  depth_images SetViewMatrices draw apple v do_render depth_scale
  = Some (v', depth_image, png_image) ∧
  ∃ name rest,
    CaptureDepthImage timestamp SetViewMatrices draw apple v filename
                      do_render depth_scale
    = Some (v', WriteImage name png_image :: rest).

(** [png_image] is the image a colour capture writes and [screen_image] the
    colour plane as it was read back. *)
Definition captures_screen {I E} (timestamp : string)
  (SetViewMatrices : ViewControl I E → View I E)
  (draw : ViewControl I E → FrameBuffer) (v : Visualizer I E)
  (filename : string) (do_render : bool)
  (screen_image png_image : Image Z) : Prop :=
  let v' := render_if SetViewMatrices draw do_render v in
  screen_images SetViewMatrices draw v do_render
  = Some (v', screen_image, png_image) ∧
  ∃ name rest,
    CaptureScreenImage timestamp SetViewMatrices draw v filename do_render
    = Some (v', WriteImage name png_image :: rest).

(** The samples of one line of an image, whatever the sample type. *)
Definition samples_per_line {A} (img : Image A) : nat :=
  typed_offset img (BytesPerLine img).

Definition sample_line {A} (img : Image A) (row : nat) : list A :=
  take (samples_per_line img) (drop (samples_per_line img * row) (data_ img)).

(** Lines 107-115 on their own, for an image of any sample type: a fresh
    image of the same shape receives the lines in reverse order, the byte
    offsets of the source taken in samples.  For one-byte samples this is
    [flip_rows]. *)
Definition flip_vertical {A} (zero : A) (img : Image A) : option (Image A) :=
  let bytes_per_line := BytesPerLine img in
  for_loop (height_ img)
    (λ i png,
       d ← memcpy (data_ png) (typed_offset img (bytes_per_line * i))
                  (data_ img)
                  (typed_offset img (bytes_per_line * (height_ img - i - 1)))
                  (typed_offset img bytes_per_line);
       Some (set_data png d))
    (PrepareImage zero (width_ img) (height_ img) (num_of_channels_ img)
                  (bytes_per_channel_ img)).

(** Flipping [img] gives its lines in reverse order, and flipping the result
    gives [img] back. *)
Definition flips_back {A} (zero : A) (img : Image A) : Prop :=
  ∃ once, flip_vertical zero img = Some once ∧
          (∀ i, (i < height_ img)%nat →
                sample_line once i = sample_line img (height_ img - 1 - i)) ∧
          flip_vertical zero once = Some img.

(** ** Concrete windows *)

(** A window of two by two pixels; the left column shows no surface, the right
    column a surface at normalized depth one half.  Rendering sets the clip
    distances to one tenth and one hundred. *)
Definition example_front : FrameBuffer :=
  mkFrameBuffer
    (λ x y, mkRGB (Z.of_nat x) (Z.of_nat y) 7)
    (λ x _, match x with O => 1 | _ => 1 # 2 end).

Definition example_view : View unit unit := mkView (1 # 10) 100 (tt, tt).

Definition example_matrices (_ : ViewControl unit unit) : View unit unit :=
  example_view.

Definition example_draw (_ : ViewControl unit unit) : FrameBuffer :=
  example_front.

Definition example_visualizer : Visualizer unit unit :=
  mkVisualizer (mkViewControl 2 2 (mkView 1 10 (tt, tt))) true example_front.

(** A window of one pixel showing a surface on the near plane, seventy units
    away. *)
Definition distant_front : FrameBuffer :=
  mkFrameBuffer (λ _ _, mkRGB 0 0 0) (λ _ _, 0).

Definition distant_visualizer : Visualizer unit unit :=
  mkVisualizer (mkViewControl 1 1 (mkView 70 100 (tt, tt))) true distant_front.

(** A window one pixel wide and two pixels high with two different depths. *)
Definition tall_front : FrameBuffer :=
  mkFrameBuffer (λ _ _, mkRGB 0 0 0)
                (λ _ y, match y with O => 1 # 4 | _ => 1 # 2 end).

Definition tall_image : Image Q := PrepareImage (0 : Q) 1 2 1 4.

(** The window one pixel wide and two pixels high. *)
Definition tall_draw (_ : ViewControl unit unit) : FrameBuffer := tall_front.

Definition tall_visualizer : Visualizer unit unit :=
  mkVisualizer (mkViewControl 1 2 example_view) true tall_front.

(** A window two pixels wide and one pixel high, and a window without
    pixels. *)
Definition wide_visualizer : Visualizer unit unit :=
  mkVisualizer (mkViewControl 2 1 example_view) true example_front.

Definition empty_visualizer : Visualizer unit unit :=
  mkVisualizer (mkViewControl 0 0 example_view) true example_front.

(** * Properties *)

(** ** Loops and buffers *)

Lemma for_loop_from_inv {S} (I : nat → S → Prop) body count :
  ∀ start s,
    I start s →
    (∀ k t, (start ≤ k < start + count)%nat → I k t →
            ∃ t', body k t = Some t' ∧ I (Datatypes.S k) t') →
    ∃ s', for_loop_from start count body s = Some s' ∧ I (start + count)%nat s'.
Proof.
  induction count as [|c IH]; intros start s Hs Hstep; simpl.
  - exists s. rewrite Nat.add_0_r. done.
  - destruct (Hstep start s) as (t & Hb & Ht); [lia | done |].
    rewrite Hb. simpl.
    destruct (IH (Datatypes.S start) t Ht) as (s' & Hl & Hs').
    + intros k u Hk Hu. apply Hstep; [lia | done].
    + exists s'. split; [done |].
      by replace (start + Datatypes.S c)%nat with (Datatypes.S start + c)%nat by lia.
Qed.

Lemma for_loop_inv {S} (I : nat → S → Prop) body n s :
  I O s →
  (∀ k t, (k < n)%nat → I k t → ∃ t', body k t = Some t' ∧ I (Datatypes.S k) t') →
  ∃ s', for_loop n body s = Some s' ∧ I n s'.
Proof.
  intros H0 Hstep. unfold for_loop.
  destruct (for_loop_from_inv I body n O s H0) as (s' & ? & ?); [|by exists s'].
  intros k t Hk. apply Hstep. lia.
Qed.

Lemma store_spec {A} (buf : list A) i v :
  (i < length buf)%nat →
  ∃ r, store buf i v = Some r ∧ length r = length buf ∧ r !! i = Some v ∧
       ∀ k, k ≠ i → r !! k = buf !! k.
Proof.
  intros Hi. unfold store. rewrite decide_True by done.
  eexists; split; [done |]. split; [apply length_insert |].
  split; [by apply list_lookup_insert_eq |].
  intros k Hk. by apply list_lookup_insert_ne.
Qed.

Lemma memcpy_spec {A} (dst src : list A) d s n :
  (d + n ≤ length dst)%nat → (s + n ≤ length src)%nat →
  ∃ r, memcpy dst d src s n = Some r ∧ length r = length dst ∧
       (∀ c, (c < n)%nat → r !! (d + c)%nat = src !! (s + c)%nat) ∧
       (∀ k, (k < d ∨ d + n ≤ k)%nat → r !! k = dst !! k).
Proof.
  intros Hd Hs. unfold memcpy. rewrite decide_True by done.
  eexists; split; [done |].
  assert (Ht : length (take d dst) = d) by (rewrite length_take; lia).
  assert (Hm : length (take n (drop s src)) = n)
    by (rewrite length_take, length_drop; lia).
  split; [|split].
  - rewrite !length_app, Ht, Hm, length_drop. lia.
  - intros c Hc. rewrite lookup_app_r by lia. rewrite Ht.
    rewrite lookup_app_l by lia.
    rewrite lookup_take_lt by lia. rewrite lookup_drop. f_equal. lia.
  - intros k [Hk | Hk].
    + rewrite lookup_app_l by lia. by rewrite lookup_take_lt.
    + rewrite lookup_app_r by lia. rewrite Ht.
      rewrite lookup_app_r by lia. rewrite Hm, lookup_drop. f_equal. lia.
Qed.

Lemma write_pixels_spec {A} (dst src : list A) :
  (length src ≤ length dst)%nat →
  ∃ r, write_pixels dst src = Some r ∧ length r = length dst ∧
       (∀ k, (k < length src)%nat → r !! k = src !! k) ∧
       (∀ k, (length src ≤ k)%nat → r !! k = dst !! k).
Proof.
  intros H. unfold write_pixels. rewrite decide_True by done.
  eexists; split; [done |]. split; [|split].
  - rewrite length_app, length_drop. lia.
  - intros k Hk. by rewrite lookup_app_l.
  - intros k Hk. rewrite lookup_app_r by done. rewrite lookup_drop.
    f_equal. lia.
Qed.

Lemma length_read_block {A} (px : nat → nat → list A) n x y w h :
  (∀ c r, length (px c r) = n) →
  length (read_block px x y w h) = (w * h * n)%nat.
Proof.
  intros Hpx. unfold read_block.
  rewrite (flat_map_constant_length (c := (w * n)%nat)).
  - rewrite length_seq. lia.
  - intros r _. rewrite (flat_map_constant_length (c := n)).
    + by rewrite length_seq.
    + intros c _. apply Hpx.
Qed.

Lemma row_lookup {A} (f : nat → A) x w c :
  (c < w)%nat → flat_map (λ c, [f c]) (seq x w) !! c = Some (f (x + c)%nat).
Proof.
  revert x c. induction w as [|w IH]; intros x c Hc; [lia |].
  simpl. destruct c as [|c]; simpl.
  - by rewrite Nat.add_0_r.
  - rewrite IH by lia. f_equal. f_equal. lia.
Qed.

Lemma read_block_lookup {A} (f : nat → nat → A) x y w h r c :
  (r < h)%nat → (c < w)%nat →
  read_block (λ c r, [f c r]) x y w h !! (r * w + c)%nat
  = Some (f (x + c)%nat (y + r)%nat).
Proof.
  unfold read_block. revert y r. induction h as [|h IH]; intros y r Hr Hc; [lia |].
  simpl.
  assert (Hlen : length (flat_map (λ c0, [f c0 y]) (seq x w)) = w).
  { rewrite (flat_map_constant_length (c := 1%nat)).
    - rewrite length_seq. lia.
    - done. }
  destruct r as [|r].
  - rewrite lookup_app_l by (rewrite Hlen; lia). simpl.
    rewrite (row_lookup (λ c0, f c0 y)) by done. by rewrite Nat.add_0_r.
  - rewrite lookup_app_r by (rewrite Hlen; lia). rewrite Hlen.
    replace (Datatypes.S r * w + c - w)%nat with (r * w + c)%nat by lia.
    rewrite IH by lia. f_equal. f_equal. lia.
Qed.

Lemma glReadPixels_RGB_spec fb x y w h dst :
  (w * h * 3 ≤ length dst)%nat →
  ∃ r, glReadPixels_RGB fb x y w h dst = Some r ∧ length r = length dst.
Proof.
  intros H. unfold glReadPixels_RGB.
  destruct (write_pixels_spec dst
    (read_block (λ c r, let p := color_at fb c r in [red p; green p; blue p])
                x y w h)) as (r & Hr & Hl & _).
  - by rewrite (length_read_block _ 3).
  - by exists r.
Qed.

Lemma glReadPixels_DEPTH_spec fb x y w h dst :
  (w * h ≤ length dst)%nat →
  ∃ out, glReadPixels_DEPTH fb x y w h dst = Some out ∧
         length out = length dst ∧
         (∀ r c, (r < h)%nat → (c < w)%nat →
                 out !! (r * w + c)%nat = Some (depth_at fb (x + c) (y + r))) ∧
         (∀ k, (w * h ≤ k)%nat → out !! k = dst !! k).
Proof.
  intros H. unfold glReadPixels_DEPTH.
  assert (Hlen : length (read_block (λ c r, [depth_at fb c r]) x y w h)
                 = (w * h)%nat)
    by (rewrite (length_read_block _ 1) by done; lia).
  destruct (write_pixels_spec dst
    (read_block (λ c r, [depth_at fb c r]) x y w h))
    as (out & Ho & Hl & Hin & Hout).
  { lia. }
  exists out. split; [done |]. split; [done |]. split.
  - intros r c Hr Hc. rewrite Hin by (rewrite Hlen; nia).
    by apply (read_block_lookup (depth_at fb)).
  - intros k Hk. apply Hout. lia.
Qed.

Lemma cell_lt w h i j : (i < h)%nat → (j < w)%nat → (w * i + j < w * h)%nat.
Proof. intros. nia. Qed.

Lemma cell_split w k :
  (0 < w)%nat → ∃ i j, k = (w * i + j)%nat ∧ (j < w)%nat.
Proof.
  intros Hw. exists (k / w)%nat, (k mod w)%nat. split.
  - apply Nat.div_mod_eq.
  - apply Nat.mod_upper_bound. lia.
Qed.

Lemma cell_inj w i j i' j' :
  (j < w)%nat → (j' < w)%nat → (i * w + j = i' * w + j')%nat → i = i' ∧ j = j'.
Proof.
  intros Hj Hj' H.
  assert (i = i') by nia. subst. lia.
Qed.

(** ** Arithmetic of the reconstruction *)

Lemma to_uint16_range x : (0 ≤ Depth.to_uint16 x < 65536)%Z.
Proof. unfold Depth.to_uint16. apply Z.mod_pos_bound. lia. Qed.

Lemma to_uint16_small x : (0 ≤ x < 65536)%Z → Depth.to_uint16 x = x.
Proof. intros H. unfold Depth.to_uint16. by apply Z.mod_small. Qed.

Lemma quantize_range depth_scale z :
  (0 ≤ Depth.quantize depth_scale z ≤ 32767)%Z.
Proof.
  unfold Depth.quantize.
  pose proof (to_uint16_range (Depth.round (depth_scale * z))).
  change (Depth.to_uint16 Depth.INT16_MAX) with 32767%Z. lia.
Qed.

(** Where the rounded value fits [uint16_t] the conversion keeps it and the
    minimum clamps it. *)
Lemma quantize_small depth_scale z :
  (0 ≤ Depth.round (depth_scale * z) < 65536)%Z →
  Depth.quantize depth_scale z = Z.min (Depth.round (depth_scale * z)) 32767.
Proof.
  intros H. unfold Depth.quantize. by rewrite to_uint16_small.
Qed.

Lemma z_denominator_bounds z_near z_far d :
  0 < z_near → z_near < z_far → 0 <= d → d <= 1 →
  2 * z_near <= Depth.z_denominator z_near z_far d ∧
  Depth.z_denominator z_near z_far d <= 2 * z_far.
Proof.
  intros Hn Hf Hd0 Hd1. unfold Depth.z_denominator. split; nra.
Qed.


(** ** The flip of the colour capture *)

Lemma same_shape_refl {A} (a : Image A) : same_shape a a.
Proof. by repeat split. Qed.

Lemma same_shape_set_data {A B C} (a : Image A) (b : Image B) (d : list C) :
  same_shape a b → same_shape (set_data a d) b.
Proof. intros H. exact H. Qed.

Lemma flip_rows_spec (screen_image png_image : Image Z) :
  let n := BytesPerLine screen_image in
  let h := height_ screen_image in
  length (data_ screen_image) = (n * h)%nat →
  length (data_ png_image) = (n * h)%nat →
  ∃ out, flip_rows screen_image png_image = Some out ∧
         same_shape out png_image ∧
         length (data_ out) = (n * h)%nat ∧
         ∀ i c, (i < h)%nat → (c < n)%nat →
                data_ out !! (n * i + c)%nat
                = data_ screen_image !! (n * (h - i - 1) + c)%nat.
Proof.
  intros n h Hs Hp. unfold flip_rows. fold n h.
  apply (for_loop_inv
    (λ k (png : Image Z),
       same_shape png png_image ∧ length (data_ png) = (n * h)%nat ∧
       ∀ i c, (i < k)%nat → (c < n)%nat →
              data_ png !! (n * i + c)%nat
              = data_ screen_image !! (n * (h - i - 1) + c)%nat)).
  - split; [apply same_shape_refl |]. split; [done |]. intros; lia.
  - intros k png Hk (Hsh & Hlen & Hrows).
    destruct (memcpy_spec (data_ png) (data_ screen_image)
                (n * k) (n * (h - k - 1)) n) as (r & Hr & Hrl & Hin & Hout).
    { rewrite Hlen. nia. }
    { rewrite Hs. nia. }
    rewrite Hr. simpl. eexists; split; [done |].
    split; [by apply same_shape_set_data |].
    split; [simpl; lia |].
    intros i c Hi Hc. simpl.
    destruct (decide (i = k)) as [->|Hne].
    + by apply Hin.
    + rewrite Hout by nia. apply Hrows; [lia | done].
Qed.

Lemma line_lookup (img : Image Z) row c :
  (c < BytesPerLine img)%nat →
  line img row !! c = data_ img !! (BytesPerLine img * row + c)%nat.
Proof.
  intros Hc. unfold line. rewrite lookup_take_lt by done. by rewrite lookup_drop.
Qed.

Lemma line_lookup_ge (img : Image Z) row c :
  (BytesPerLine img ≤ c)%nat → line img row !! c = None.
Proof. intros Hc. unfold line. by apply lookup_take_ge. Qed.

Lemma PrepareImage_length {A} (zero : A) w h c b :
  length (data_ (PrepareImage zero w h c b)) = (w * h * c)%nat.
Proof. apply length_replicate. Qed.

Lemma render_if_window {I E} sv draw do_render (v : Visualizer I E) :
  GetWindowWidth (view_control_ptr_ (render_if sv draw do_render v))
  = GetWindowWidth (view_control_ptr_ v) ∧
  GetWindowHeight (view_control_ptr_ (render_if sv draw do_render v))
  = GetWindowHeight (view_control_ptr_ v).
Proof. by destruct do_render. Qed.

(** The two images of a colour capture: both of the window's size with three
    one-byte channels, the second the first with its lines in reverse order. *)
Lemma screen_images_spec {I E} sv draw (v : Visualizer I E) do_render :
  let w := GetWindowWidth (view_control_ptr_ v) in
  let h := GetWindowHeight (view_control_ptr_ v) in
  ∃ screen_image png_image,
    screen_images sv draw v do_render
    = Some (render_if sv draw do_render v, screen_image, png_image) ∧
    same_shape screen_image (PrepareImage 0%Z w h 3 1) ∧
    same_shape png_image (PrepareImage 0%Z w h 3 1) ∧
    length (data_ screen_image) = (w * h * 3)%nat ∧
    length (data_ png_image) = (w * h * 3)%nat ∧
    ∀ i c, (i < h)%nat → (c < w * 3 * 1)%nat →
           data_ png_image !! (w * 3 * 1 * i + c)%nat
           = data_ screen_image !! (w * 3 * 1 * (h - i - 1) + c)%nat.
Proof.
  intros w h. unfold screen_images.
  destruct (render_if_window sv draw do_render v) as [-> ->]. fold w h.
  destruct (glReadPixels_RGB_spec
              (front_buffer (render_if sv draw do_render v)) 0 0 w h
              (data_ (PrepareImage 0%Z w h 3 1))) as (d & Hd & Hdl).
  { by rewrite PrepareImage_length. }
  rewrite Hd. simpl.
  rewrite PrepareImage_length in Hdl.
  destruct (flip_rows_spec (set_data (PrepareImage 0%Z w h 3 1) d)
                           (PrepareImage 0%Z w h 3 1))
    as (out & Hout & Hsh & Hlen & Hrows).
  { simpl. unfold BytesPerLine. simpl. lia. }
  { rewrite PrepareImage_length. unfold BytesPerLine. simpl. lia. }
  rewrite Hout. simpl.
  exists (set_data (PrepareImage 0%Z w h 3 1) d), out.
  split; [done |]. split; [by repeat split |]. split; [done |].
  split; [done |]. split.
  - rewrite Hlen. unfold BytesPerLine. simpl. lia.
  - exact Hrows.
Qed.

(** ** Flip and conversion of the depth capture *)

Lemma typed_offset_line {A} (img : Image A) r :
  num_of_channels_ img = 1%nat → bytes_per_channel_ img ≠ O →
  typed_offset img (BytesPerLine img * r) = (width_ img * r)%nat.
Proof.
  intros Hc Hb. unfold typed_offset, BytesPerLine. rewrite Hc.
  replace (width_ img * 1 * bytes_per_channel_ img * r)%nat
    with (width_ img * r * bytes_per_channel_ img)%nat by lia.
  by apply Nat.div_mul.
Qed.

Lemma convert_line_spec depth_scale z_near z_far
  (depth_image : Image Q) (png : Image Z) i :
  let w := width_ depth_image in
  let h := height_ depth_image in
  num_of_channels_ depth_image = 1%nat → bytes_per_channel_ depth_image = 4%nat →
  width_ png = w → num_of_channels_ png = 1%nat → bytes_per_channel_ png = 2%nat →
  length (data_ depth_image) = (w * h)%nat →
  length (data_ png) = (w * h)%nat →
  (i < h)%nat →
  ∃ out, convert_line depth_scale z_near z_far depth_image i png = Some out ∧
         same_shape out png ∧ length (data_ out) = (w * h)%nat ∧
         (∀ j, (j < w)%nat →
               ∃ d, data_ depth_image !! (w * (h - i - 1) + j)%nat = Some d ∧
                    data_ out !! (w * i + j)%nat
                    = converted depth_scale z_near z_far d
                                (data_ png !! (w * i + j)%nat)) ∧
         (∀ k, (k < w * i ∨ w * i + w ≤ k)%nat → data_ out !! k = data_ png !! k).
Proof.
  intros w h Hdc Hdb Hpw Hpc Hpb Hdl Hpl Hi. unfold convert_line.
  rewrite (typed_offset_line depth_image) by (done || lia).
  rewrite (typed_offset_line png) by (done || lia).
  rewrite Hpw. fold w h.
  destruct (for_loop_inv
    (λ n (t : Image Z),
       same_shape t png ∧ length (data_ t) = (w * h)%nat ∧
       (∀ j, (j < n)%nat →
             ∃ d, data_ depth_image !! (w * (h - i - 1) + j)%nat = Some d ∧
                  data_ t !! (w * i + j)%nat
                  = converted depth_scale z_near z_far d
                              (data_ png !! (w * i + j)%nat)) ∧
       (∀ k, (k < w * i ∨ w * i + n ≤ k)%nat → data_ t !! k = data_ png !! k))
    (convert_pixel depth_scale z_near z_far depth_image
                   (w * (h - i - 1)) (w * i)) w png) as (out & Ho & HI).
  - split; [apply same_shape_refl |]. split; [done |].
    split; [intros; lia | done].
  - intros n t Hn (Hsh & Hlen & Hdone & Hrest). unfold convert_pixel, load.
    destruct (lookup_lt_is_Some_2 (data_ depth_image) (w * (h - i - 1) + n)%nat)
      as [d Hd].
    { rewrite Hdl. apply cell_lt; lia. }
    rewrite Hd. simpl.
    destruct (Qeq_bool d 1) eqn:Hone.
    + eexists; split; [done |]. split; [done |]. split; [done |]. split.
      * intros j Hj. destruct (decide (j = n)) as [->|Hne].
        -- exists d. split; [done |]. unfold converted. rewrite Hone.
           apply Hrest. lia.
        -- apply Hdone. lia.
      * intros k Hk. apply Hrest. lia.
    + destruct (store_spec (data_ t) (w * i + n)%nat
                  (Depth.quantize depth_scale (Depth.z_depth z_near z_far d)))
        as (r & Hr & Hrl & Hat & Hoth).
      { rewrite Hlen. apply cell_lt; lia. }
      rewrite Hr. simpl. eexists; split; [done |].
      split; [by apply same_shape_set_data |]. split; [simpl; lia |]. split.
      * intros j Hj. simpl. destruct (decide (j = n)) as [->|Hne].
        -- exists d. split; [done |]. unfold converted. by rewrite Hone.
        -- rewrite Hoth by lia. apply Hdone. lia.
      * intros k Hk. simpl. rewrite Hoth by lia. apply Hrest. lia.
  - exists out. split; [done |]. destruct HI as (? & ? & ? & ?). done.
Qed.

Lemma convert_depth_spec depth_scale z_near z_far
  (depth_image : Image Q) (png_image : Image Z) :
  let w := width_ depth_image in
  let h := height_ depth_image in
  num_of_channels_ depth_image = 1%nat → bytes_per_channel_ depth_image = 4%nat →
  width_ png_image = w → num_of_channels_ png_image = 1%nat →
  bytes_per_channel_ png_image = 2%nat →
  length (data_ depth_image) = (w * h)%nat →
  length (data_ png_image) = (w * h)%nat →
  ∃ out, convert_depth depth_scale z_near z_far depth_image png_image = Some out ∧
         same_shape out png_image ∧ length (data_ out) = (w * h)%nat ∧
         ∀ i j, (i < h)%nat → (j < w)%nat →
                ∃ d, data_ depth_image !! (w * (h - i - 1) + j)%nat = Some d ∧
                     data_ out !! (w * i + j)%nat
                     = converted depth_scale z_near z_far d
                                 (data_ png_image !! (w * i + j)%nat).
Proof.
  intros w h Hdc Hdb Hpw Hpc Hpb Hdl Hpl. unfold convert_depth.
  subst w h. set (w := width_ depth_image) in *.
  set (h := height_ depth_image) in *.
  destruct (for_loop_inv
    (λ n (t : Image Z),
       same_shape t png_image ∧ length (data_ t) = (w * h)%nat ∧
       (∀ i j, (i < n)%nat → (j < w)%nat →
               ∃ d, data_ depth_image !! (w * (h - i - 1) + j)%nat = Some d ∧
                    data_ t !! (w * i + j)%nat
                    = converted depth_scale z_near z_far d
                                (data_ png_image !! (w * i + j)%nat)) ∧
       (∀ k, (w * n ≤ k)%nat → data_ t !! k = data_ png_image !! k))
    (convert_line depth_scale z_near z_far depth_image) h png_image)
    as (out & Ho & HI).
  - split; [apply same_shape_refl |]. split; [done |].
    split; [intros; lia | done].
  - intros n t Hn (Hsh & Hlen & Hdone & Hrest).
    destruct Hsh as (Hw & Hh & Hc & Hb).
    assert (Htw : width_ t = width_ depth_image) by (rewrite Hw; exact Hpw).
    assert (Htc : num_of_channels_ t = 1%nat) by (rewrite Hc; exact Hpc).
    assert (Htb : bytes_per_channel_ t = 2%nat) by (rewrite Hb; exact Hpb).
    destruct (convert_line_spec depth_scale z_near z_far depth_image t n
                Hdc Hdb Htw Htc Htb Hdl Hlen Hn)
      as (out & Ho & Hosh & Holen & Hrow & Hoth).
    fold w h in Holen, Hrow, Hoth.
    exists out. split; [done |].
    split.
    { destruct Hosh as (? & ? & ? & ?). repeat split; congruence. }
    split; [done |]. split.
    + intros i j Hi Hj. destruct (decide (i = n)) as [->|Hne].
      * destruct (Hrow j Hj) as (d & Hd & Hv). exists d. split; [done |].
        rewrite Hv. f_equal. apply Hrest. lia.
      * rewrite Hoth by nia. apply Hdone; [lia | done].
    + intros k Hk. rewrite Hoth by nia. apply Hrest. nia.
  - exists out. split; [done |]. destruct HI as (? & ? & ? & ?). done.
Qed.

(** ** Reading the depth plane back *)

Lemma read_depth_block_spec fb (depth_image : Image Q) :
  let w := width_ depth_image in
  let h := height_ depth_image in
  length (data_ depth_image) = (w * h)%nat →
  ∃ out, read_depth_block fb depth_image = Some out ∧
         same_shape out depth_image ∧
         length (data_ out) = (w * h)%nat ∧
         ∀ i j, (i < h)%nat → (j < w)%nat →
                pixel out i j = Some (depth_at fb j i).
Proof.
  intros w h Hl. unfold read_depth_block. fold w h.
  destruct (glReadPixels_DEPTH_spec fb 0 0 w h (data_ depth_image))
    as (r & Hr & Hrl & Hin & _).
  { lia. }
  rewrite Hr. simpl. eexists; split; [done |]. split; [by repeat split |].
  split; [simpl; lia |].
  intros i j Hi Hj. unfold pixel. simpl. fold w. by rewrite Hin.
Qed.

Lemma read_column_spec fb (depth_image : Image Q) j float_buffer p :
  let w := width_ depth_image in
  let h := height_ depth_image in
  (w ≤ h)%nat → (j < w)%nat →
  length float_buffer = h → length p = (w * h)%nat →
  (∀ i, (w ≤ i < h)%nat → float_buffer !! i = Some 0) →
  ∃ float_buffer' p',
    read_column fb depth_image j (float_buffer, p) = Some (float_buffer', p') ∧
    length float_buffer' = h ∧ length p' = (w * h)%nat ∧
    (∀ i, (w ≤ i < h)%nat → float_buffer' !! i = Some 0) ∧
    (∀ i, (i < h)%nat →
          p' !! (i * w + j)%nat
          = Some (if decide (i < w)%nat then depth_at fb j i else 0)) ∧
    (∀ i j', (j' < w)%nat → j' ≠ j → p' !! (i * w + j')%nat = p !! (i * w + j')%nat).
Proof.
  intros w h Hwh Hj Hf Hp Hz. unfold read_column. fold w h.
  destruct (glReadPixels_DEPTH_spec fb j 0 1 w float_buffer)
    as (r & Hr & Hrl & Hrin & Hrout).
  { lia. }
  rewrite Hr. simpl.
  assert (Hrz : ∀ i, (w ≤ i < h)%nat → r !! i = Some 0).
  { intros i Hi. rewrite Hrout by lia. by apply Hz. }
  assert (Hrd : ∀ i, (i < h)%nat →
            r !! i = Some (if decide (i < w)%nat then depth_at fb j i else 0)).
  { intros i Hi. destruct (decide (i < w)%nat) as [Hlt|Hge].
    - specialize (Hrin i O Hlt). rewrite Nat.mul_1_r, !Nat.add_0_r in Hrin.
      apply Hrin. lia.
    - apply Hrz. lia. }
  destruct (for_loop_inv
    (λ (k : nat) (t : list Q),
       length t = (w * h)%nat ∧
       (∀ i, (i < k)%nat → t !! (i * w + j)%nat = r !! i) ∧
       (∀ i j', (j' < w)%nat → (j' ≠ j ∨ k ≤ i)%nat →
                t !! (i * w + j')%nat = p !! (i * w + j')%nat))
    (λ i t, x ← load r i; store t (i * w + j) x) h p)
    as (p' & Hp' & Hl' & Hcol & Hoth).
  - split; [done |]. split; [intros; lia | done].
  - intros k t Hk (Ht & Hdone & Hkeep). unfold load.
    destruct (lookup_lt_is_Some_2 r k) as [x Hx]; [lia |].
    rewrite Hx. simpl.
    destruct (store_spec t (k * w + j)%nat x) as (t' & Ht' & Htl & Hat & Hne).
    { rewrite Ht. nia. }
    exists t'. split; [done |]. split; [lia |]. split.
    + intros i Hi. destruct (decide (i = k)) as [->|Hik].
      * by rewrite Hat.
      * rewrite Hne; [apply Hdone; lia |].
        intros Heq. destruct (cell_inj w i j k j Hj Hj Heq). lia.
    + intros i j' Hj' Hcase. rewrite Hne; [apply Hkeep; [done | lia] |].
      intros Heq. destruct (cell_inj w i j' k j Hj' Hj Heq). lia.
  - rewrite Hp'. simpl. exists r, p'. split; [done |]. split; [lia |].
    split; [done |]. split; [done |]. split.
    + intros i Hi. rewrite Hcol by done. by apply Hrd.
    + intros i j' Hj' Hne. apply Hoth; [done | by left].
Qed.

(** Column by column the lines below [width_] are read; the lines from
    [width_] on keep the zero of [float_buffer]. *)
Lemma read_depth_columns_spec fb (depth_image : Image Q) :
  let w := width_ depth_image in
  let h := height_ depth_image in
  (w ≤ h)%nat →
  length (data_ depth_image) = (w * h)%nat →
  ∃ out, read_depth_columns fb depth_image = Some out ∧
         same_shape out depth_image ∧
         length (data_ out) = (w * h)%nat ∧
         ∀ i j, (i < h)%nat → (j < w)%nat →
                pixel out i j
                = Some (if decide (i < w)%nat then depth_at fb j i else 0).
Proof.
  intros w h Hwh Hl. unfold read_depth_columns. fold w h.
  destruct (for_loop_inv
    (λ (k : nat) (st : list Q * list Q),
       length st.1 = h ∧ length st.2 = (w * h)%nat ∧
       (∀ i, (w ≤ i < h)%nat → st.1 !! i = Some 0) ∧
       (∀ i j, (i < h)%nat → (j < k)%nat →
               st.2 !! (i * w + j)%nat
               = Some (if decide (i < w)%nat then depth_at fb j i else 0)))
    (read_column fb depth_image) w
    (replicate h (0 : Q), data_ depth_image))
    as ([f p] & Hrun & _ & Hpl & _ & Hpix).
  - simpl. rewrite length_replicate. split; [done |]. split; [done |]. split.
    + intros i Hi. apply lookup_replicate_2. lia.
    + intros; lia.
  - intros j [f p] Hj (Hf & Hp & Hz & Hdone). simpl in Hf, Hp, Hz, Hdone.
    destruct (read_column_spec fb depth_image j f p Hwh Hj Hf Hp Hz)
      as (f' & p' & Hrc & Hf' & Hp' & Hz' & Hcol & Hoth).
    fold w h in Hf', Hp', Hz', Hcol, Hoth.
    exists (f', p'). split; [done |]. simpl. split; [done |]. split; [done |].
    split; [done |].
    intros i j' Hi Hj'. destruct (decide (j' = j)) as [->|Hne].
    + by apply Hcol.
    + rewrite Hoth by (lia || done). apply Hdone; [done | lia].
  - rewrite Hrun. simpl. eexists; split; [done |]. simpl in Hpl, Hpix.
    split; [by repeat split |]. split; [done |].
    intros i j Hi Hj. unfold pixel. simpl. fold w. by apply Hpix.
Qed.

(** On a square window the two ways of reading the plane agree. *)
Lemma read_depth_square fb (depth_image : Image Q) :
  width_ depth_image = height_ depth_image →
  length (data_ depth_image)
  = (width_ depth_image * height_ depth_image)%nat →
  ∃ out, read_depth true fb depth_image = Some out ∧
         read_depth false fb depth_image = Some out.
Proof.
  intros Hsq Hl.
  destruct (read_depth_columns_spec fb depth_image)
    as (a & Ha & Hash & Hal & Hap); [lia | done |].
  destruct (read_depth_block_spec fb depth_image Hl)
    as (b & Hb & Hbsh & Hbl & Hbp).
  exists a. unfold read_depth. split; [done |]. rewrite Hb. f_equal.
  assert (Hd : data_ b = data_ a).
  { apply list_eq. intros k.
    destruct (decide (k < width_ depth_image * height_ depth_image)%nat)
      as [Hk|Hk].
    - assert (Hpos : (0 < width_ depth_image)%nat) by nia.
      destruct (cell_split (width_ depth_image) k Hpos) as (i & j & -> & Hj).
      assert (Hi : (i < height_ depth_image)%nat) by nia.
      specialize (Hap i j Hi Hj). specialize (Hbp i j Hi Hj).
      unfold pixel in Hap, Hbp.
      destruct Hash as (Hwa & _). destruct Hbsh as (Hwb & _).
      rewrite Hwa in Hap. rewrite Hwb in Hbp.
      rewrite (Nat.mul_comm _ i), Hap, Hbp.
      rewrite decide_True by lia. done.
    - rewrite !lookup_ge_None_2 by lia. done. }
  destruct Hash as (? & ? & ? & ?). destruct Hbsh as (? & ? & ? & ?).
  destruct a, b. simpl in *. congruence.
Qed.

Lemma read_depth_spec apple fb (depth_image : Image Q) :
  let w := width_ depth_image in
  let h := height_ depth_image in
  (apple = true → (w ≤ h)%nat) →
  length (data_ depth_image) = (w * h)%nat →
  ∃ out, read_depth apple fb depth_image = Some out ∧
         same_shape out depth_image ∧
         length (data_ out) = (w * h)%nat.
Proof.
  intros w h Ha Hl. unfold read_depth. destruct apple.
  - destruct (read_depth_columns_spec fb depth_image (Ha eq_refl) Hl)
      as (out & ? & ? & ? & _). by exists out.
  - destruct (read_depth_block_spec fb depth_image Hl)
      as (out & ? & ? & ? & _). by exists out.
Qed.

(** ** The two images of a depth capture *)

(** Both are of the window's size with one channel, of four and of two bytes;
    a sample of the second comes from the sample of the first in the mirrored
    line and the same column, with the clip distances of the view after the
    optional rendering.  Reading column by column stays inside [float_buffer]
    only where the window is at least as high as it is wide. *)
Lemma depth_images_spec {I E} sv draw apple (v : Visualizer I E) do_render
  depth_scale :
  let vc := view_control_ptr_ (render_if sv draw do_render v) in
  let w := GetWindowWidth vc in
  let h := GetWindowHeight vc in
  (apple = true → (w ≤ h)%nat) →
  ∃ depth_image png_image,
    depth_images sv draw apple v do_render depth_scale
    = Some (render_if sv draw do_render v, depth_image, png_image) ∧
    same_shape depth_image (PrepareImage (0 : Q) w h 1 4) ∧
    same_shape png_image (PrepareImage 0%Z w h 1 2) ∧
    length (data_ depth_image) = (w * h)%nat ∧
    length (data_ png_image) = (w * h)%nat ∧
    ∀ i j, (i < h)%nat → (j < w)%nat →
           ∃ d, pixel depth_image (h - i - 1) j = Some d ∧
                pixel png_image i j
                = converted depth_scale (GetZNear vc) (GetZFar vc) d (Some 0%Z).
Proof.
  intros vc w h Ha. unfold depth_images.
  destruct (render_if_window sv draw do_render v) as [Hww Hhh].
  rewrite <- Hww, <- Hhh. fold vc. fold w h.
  destruct (read_depth_spec apple
              (front_buffer (render_if sv draw do_render v))
              (PrepareImage (0 : Q) w h 1 4))
    as (dimg & Hr & Hsh & Hlen).
  { exact Ha. }
  { rewrite PrepareImage_length. simpl. lia. }
  rewrite Hr. simpl. simpl in Hlen.
  destruct Hsh as (Hw & Hh & Hc & Hb). simpl in Hw, Hh, Hc, Hb.
  destruct (convert_depth_spec depth_scale (GetZNear vc) (GetZFar vc) dimg
              (PrepareImage 0%Z w h 1 2))
    as (out & Ho & Hosh & Holen & Hpix); try done.
  { rewrite Hw, Hh. lia. }
  { rewrite PrepareImage_length, Hw, Hh. lia. }
  rewrite Ho. simpl. rewrite Hw, Hh in Holen, Hpix.
  exists dimg, out. split; [done |]. split; [by repeat split |].
  split; [done |]. split; [lia |]. split; [done |].
  intros i j Hi Hj. destruct (Hpix i j Hi Hj) as (d & Hd & Hv).
  exists d. unfold pixel. rewrite Hw.
  destruct Hosh as (Hw' & _). simpl in Hw'. rewrite Hw'.
  rewrite (Nat.mul_comm (h - i - 1) w), (Nat.mul_comm i w).
  split; [done |]. rewrite Hv. f_equal.
  apply lookup_replicate_2. pose proof (cell_lt w h i j Hi Hj). lia.
Qed.

Lemma CaptureScreenImage_unfold {I E} timestamp sv draw (v : Visualizer I E)
  filename do_render :
  CaptureScreenImage timestamp sv draw v filename do_render
  = p ← screen_images sv draw v do_render;
    Some (p.1.1,
          WriteImage (capture_names timestamp "ScreenCapture_" "ScreenCamera_"
                                    filename).1 p.2
          :: write_camera (capture_names timestamp "ScreenCapture_"
                                         "ScreenCamera_" filename).2 p.1.1).
Proof.
  unfold CaptureScreenImage.
  destruct (capture_names timestamp "ScreenCapture_" "ScreenCamera_" filename).
  destruct (screen_images sv draw v do_render) as [[[a b] c]|]; done.
Qed.

Lemma CaptureDepthImage_unfold {I E} timestamp sv draw apple
  (v : Visualizer I E) filename do_render depth_scale :
  CaptureDepthImage timestamp sv draw apple v filename do_render depth_scale
  = p ← depth_images sv draw apple v do_render depth_scale;
    Some (p.1.1,
          WriteImage (capture_names timestamp "DepthCapture_" "DepthCamera_"
                                    filename).1 p.2
          :: write_camera (capture_names timestamp "DepthCapture_"
                                         "DepthCamera_" filename).2 p.1.1).
Proof.
  unfold CaptureDepthImage.
  destruct (capture_names timestamp "DepthCapture_" "DepthCamera_" filename).
  destruct (depth_images sv draw apple v do_render depth_scale)
    as [[[a b] c]|]; done.
Qed.

Lemma CaptureDepthImage_spec {I E} timestamp sv draw apple (v : Visualizer I E)
  filename do_render depth_scale :
  let vc := view_control_ptr_ (render_if sv draw do_render v) in
  let w := GetWindowWidth vc in
  let h := GetWindowHeight vc in
  (apple = true → (w ≤ h)%nat) →
  ∃ depth_image png_image,
    captures_depth timestamp sv draw apple v filename do_render depth_scale
                   depth_image png_image ∧
    same_shape depth_image (PrepareImage (0 : Q) w h 1 4) ∧
    same_shape png_image (PrepareImage 0%Z w h 1 2) ∧
    length (data_ depth_image) = (w * h)%nat ∧
    length (data_ png_image) = (w * h)%nat ∧
    ∀ i j, (i < h)%nat → (j < w)%nat →
           ∃ d, pixel depth_image (h - i - 1) j = Some d ∧
                pixel png_image i j
                = converted depth_scale (GetZNear vc) (GetZFar vc) d (Some 0%Z).
Proof.
  intros vc w h Ha.
  destruct (depth_images_spec sv draw apple v do_render depth_scale Ha)
    as (di & pi & Hd & Hrest).
  exists di, pi. split; [|exact Hrest].
  split; [done |]. rewrite CaptureDepthImage_unfold, Hd. simpl. eauto.
Qed.

Lemma CaptureScreenImage_spec {I E} timestamp sv draw (v : Visualizer I E)
  filename do_render :
  let vc := view_control_ptr_ (render_if sv draw do_render v) in
  let w := GetWindowWidth vc in
  let h := GetWindowHeight vc in
  ∃ screen_image png_image,
    captures_screen timestamp sv draw v filename do_render
                    screen_image png_image ∧
    same_shape screen_image (PrepareImage 0%Z w h 3 1) ∧
    same_shape png_image (PrepareImage 0%Z w h 3 1) ∧
    length (data_ screen_image) = (w * h * 3)%nat ∧
    length (data_ png_image) = (w * h * 3)%nat ∧
    ∀ i c, (i < h)%nat → (c < w * 3 * 1)%nat →
           data_ png_image !! (w * 3 * 1 * i + c)%nat
           = data_ screen_image !! (w * 3 * 1 * (h - i - 1) + c)%nat.
Proof.
  intros vc w h. subst w h vc.
  destruct (render_if_window sv draw do_render v) as [-> ->].
  destruct (screen_images_spec sv draw v do_render)
    as (si & pi & Hs & Hrest).
  exists si, pi. split; [|exact Hrest].
  split; [done |]. rewrite CaptureScreenImage_unfold, Hs. simpl. eauto.
Qed.

Lemma shape_BytesPerLine {A B} (a : Image A) (b : Image B) :
  same_shape a b → BytesPerLine a = BytesPerLine b.
Proof. intros (Hw & _ & Hc & Hb). unfold BytesPerLine. by rewrite Hw, Hc, Hb. Qed.

Lemma for_loop_from_ext {S} (f g : nat → S → option S) count :
  (∀ k s, f k s = g k s) →
  ∀ start s, for_loop_from start count f s = for_loop_from start count g s.
Proof.
  intros Hfg. induction count as [|c IH]; intros start s; simpl; [done |].
  rewrite Hfg. destruct (g start s); simpl; [apply IH | done].
Qed.

Lemma typed_offset_row {A} (img : Image A) r :
  bytes_per_channel_ img ≠ O →
  typed_offset img (BytesPerLine img * r)
  = (width_ img * num_of_channels_ img * r)%nat.
Proof.
  intros Hb. unfold typed_offset, BytesPerLine.
  replace (width_ img * num_of_channels_ img * bytes_per_channel_ img * r)%nat
    with (width_ img * num_of_channels_ img * r * bytes_per_channel_ img)%nat
    by lia.
  by apply Nat.div_mul.
Qed.

Lemma samples_per_line_eq {A} (img : Image A) :
  bytes_per_channel_ img ≠ O →
  samples_per_line img = (width_ img * num_of_channels_ img)%nat.
Proof.
  intros Hb. unfold samples_per_line.
  rewrite <- (Nat.mul_1_r (BytesPerLine img)), typed_offset_row by done. lia.
Qed.

(** On one-byte samples the flip is the loop of the colour capture. *)
Lemma flip_vertical_bytes (img : Image Z) :
  bytes_per_channel_ img = 1%nat →
  flip_vertical 0%Z img
  = flip_rows img (PrepareImage 0%Z (width_ img) (height_ img)
                                (num_of_channels_ img) (bytes_per_channel_ img)).
Proof.
  intros Hb. unfold flip_vertical, flip_rows, for_loop.
  apply for_loop_from_ext. intros k s.
  unfold typed_offset. by rewrite Hb, !Nat.div_1_r.
Qed.

Lemma flip_vertical_spec {A} (zero : A) (img : Image A) :
  let n := (width_ img * num_of_channels_ img)%nat in
  let h := height_ img in
  bytes_per_channel_ img ≠ O →
  length (data_ img) = (n * h)%nat →
  ∃ out, flip_vertical zero img = Some out ∧ same_shape out img ∧
         length (data_ out) = (n * h)%nat ∧
         ∀ i c, (i < h)%nat → (c < n)%nat →
                data_ out !! (n * i + c)%nat
                = data_ img !! (n * (h - i - 1) + c)%nat.
Proof.
  intros n h Hb Hl. unfold flip_vertical. fold h.
  destruct (for_loop_inv
    (λ k (png : Image A),
       same_shape png img ∧ length (data_ png) = (n * h)%nat ∧
       ∀ i c, (i < k)%nat → (c < n)%nat →
              data_ png !! (n * i + c)%nat
              = data_ img !! (n * (h - i - 1) + c)%nat)
    (λ i png,
       d ← memcpy (data_ png) (typed_offset img (BytesPerLine img * i))
                  (data_ img)
                  (typed_offset img (BytesPerLine img * (h - i - 1)))
                  (typed_offset img (BytesPerLine img));
       Some (set_data png d)) h
    (PrepareImage zero (width_ img) h (num_of_channels_ img)
                  (bytes_per_channel_ img)))
    as (out & Ho & Hsh & Hlen & Hrows).
  - split; [by repeat split |]. split; [|intros; lia].
    rewrite PrepareImage_length. fold n. lia.
  - intros k png Hk (Hsh & Hlen & Hrows).
    rewrite !typed_offset_row by done.
    change (typed_offset img (BytesPerLine img)) with (samples_per_line img).
    rewrite samples_per_line_eq by done. fold n.
    destruct (memcpy_spec (data_ png) (data_ img) (n * k) (n * (h - k - 1)) n)
      as (r & Hr & Hrl & Hin & Hout).
    { rewrite Hlen. nia. }
    { rewrite Hl. nia. }
    rewrite Hr. simpl. eexists; split; [done |].
    split; [by apply same_shape_set_data |].
    split; [simpl; lia |].
    intros i c Hi Hc. simpl.
    destruct (decide (i = k)) as [->|Hne].
    + by apply Hin.
    + rewrite Hout by nia. apply Hrows; [lia | done].
  - by exists out.
Qed.

Lemma sample_line_lookup {A} (img : Image A) row c :
  bytes_per_channel_ img ≠ O →
  sample_line img row !! c
  = if decide (c < width_ img * num_of_channels_ img)%nat
    then data_ img !! (width_ img * num_of_channels_ img * row + c)%nat
    else None.
Proof.
  intros Hb. unfold sample_line. rewrite samples_per_line_eq by done.
  rewrite lookup_take. destruct (decide _); [|done]. by rewrite lookup_drop.
Qed.

(** A flip reverses the lines, and a second flip gives the image back. *)
Lemma flip_vertical_twice {A} (zero : A) (img : Image A) :
  bytes_per_channel_ img ≠ O →
  length (data_ img)
  = (width_ img * num_of_channels_ img * height_ img)%nat →
  flips_back zero img.
Proof.
  intros Hb Hl.
  destruct (flip_vertical_spec zero img Hb Hl)
    as (once & H1 & Hsh1 & Hl1 & Hr1).
  destruct Hsh1 as (Hw1 & Hh1 & Hc1 & Hb1).
  destruct (flip_vertical_spec zero once) as (twice & H2 & Hsh2 & Hl2 & Hr2).
  { congruence. }
  { rewrite Hw1, Hc1, Hh1. exact Hl1. }
  rewrite Hw1, Hc1, Hh1 in Hl2, Hr2.
  exists once. split; [done |]. split.
  - intros i Hi. apply list_eq. intros c.
    rewrite !sample_line_lookup by congruence. rewrite Hw1, Hc1.
    destruct (decide _); [|done]. rewrite Hr1 by done. f_equal. lia.
  - rewrite H2. f_equal.
    destruct Hsh2 as (Hw2 & Hh2 & Hc2 & Hb2).
    assert (Hdata : data_ twice = data_ img).
    { apply list_eq. intros k.
      destruct (decide (k < width_ img * num_of_channels_ img * height_ img)%nat)
        as [Hk|Hk].
      - assert (Hpos : (0 < width_ img * num_of_channels_ img)%nat) by nia.
        destruct (cell_split _ k Hpos) as (i & c & -> & Hc).
        assert (Hi : (i < height_ img)%nat) by nia.
        rewrite Hr2 by done. rewrite Hr1 by (lia || done).
        f_equal. f_equal. nia.
      - rewrite !lookup_ge_None_2 by lia. done. }
    destruct twice, img. simpl in *. congruence.
Qed.

(** ** The depth capture in binary64: loops and readback *)

Lemma b64_render_if_window {I E} sv draw do_render
  (v : Binary64.Visualizer I E) :
  Binary64.GetWindowWidth
    (Binary64.view_control_ptr_ (Binary64.render_if sv draw do_render v))
  = Binary64.GetWindowWidth (Binary64.view_control_ptr_ v) ∧
  Binary64.GetWindowHeight
    (Binary64.view_control_ptr_ (Binary64.render_if sv draw do_render v))
  = Binary64.GetWindowHeight (Binary64.view_control_ptr_ v).
Proof. by destruct do_render. Qed.

Lemma b64_glReadPixels_DEPTH_spec fb x y w h dst :
  (w * h ≤ length dst)%nat →
  ∃ out, Binary64.glReadPixels_DEPTH fb x y w h dst = Some out ∧
         length out = length dst ∧
         (∀ r c, (r < h)%nat → (c < w)%nat →
                 out !! (r * w + c)%nat
                 = Some (Binary64.depth_at fb (x + c) (y + r))) ∧
         (∀ k, (w * h ≤ k)%nat → out !! k = dst !! k).
Proof.
  intros H. unfold Binary64.glReadPixels_DEPTH.
  assert (Hlen : length (read_block (λ c r, [Binary64.depth_at fb c r])
                                    x y w h) = (w * h)%nat)
    by (rewrite (length_read_block _ 1) by done; lia).
  destruct (write_pixels_spec dst
    (read_block (λ c r, [Binary64.depth_at fb c r]) x y w h))
    as (out & Ho & Hl & Hin & Hout).
  { lia. }
  exists out. split; [done |]. split; [done |]. split.
  - intros r c Hr Hc. rewrite Hin by (rewrite Hlen; nia).
    by apply (read_block_lookup (Binary64.depth_at fb)).
  - intros k Hk. apply Hout. lia.
Qed.

Lemma b64_read_depth_block_spec fb (depth_image : Image float) :
  let w := width_ depth_image in
  let h := height_ depth_image in
  length (data_ depth_image) = (w * h)%nat →
  ∃ out, Binary64.read_depth_block fb depth_image = Some out ∧
         same_shape out depth_image ∧
         length (data_ out) = (w * h)%nat ∧
         ∀ i j, (i < h)%nat → (j < w)%nat →
                pixel out i j = Some (Binary64.depth_at fb j i).
Proof.
  intros w h Hl. unfold Binary64.read_depth_block. fold w h.
  destruct (b64_glReadPixels_DEPTH_spec fb 0 0 w h (data_ depth_image))
    as (r & Hr & Hrl & Hin & _).
  { lia. }
  rewrite Hr. simpl. eexists; split; [done |]. split; [by repeat split |].
  split; [simpl; lia |].
  intros i j Hi Hj. unfold pixel. simpl. fold w. by rewrite Hin.
Qed.

Lemma b64_read_column_spec fb (depth_image : Image float) j float_buffer p :
  let w := width_ depth_image in
  let h := height_ depth_image in
  (w ≤ h)%nat → (j < w)%nat →
  length float_buffer = h → length p = (w * h)%nat →
  ∃ float_buffer' p',
    Binary64.read_column fb depth_image j (float_buffer, p)
    = Some (float_buffer', p') ∧
    length float_buffer' = h ∧ length p' = (w * h)%nat.
Proof.
  intros w h Hwh Hj Hf Hp. unfold Binary64.read_column. fold w h.
  destruct (b64_glReadPixels_DEPTH_spec fb j 0 1 w float_buffer)
    as (r & Hr & Hrl & _).
  { lia. }
  rewrite Hr. simpl.
  destruct (for_loop_inv (λ (_ : nat) (t : list float), length t = (w * h)%nat)
    (λ i t, x ← load r i; store t (i * w + j) x) h p) as (p' & Hp' & Hl').
  - done.
  - intros i t Hi Ht. unfold load.
    destruct (lookup_lt_is_Some_2 r i) as [x Hx]; [lia |].
    rewrite Hx. simpl.
    destruct (store_spec t (i * w + j)%nat x) as (t' & Ht' & Htl & _).
    { rewrite Ht. nia. }
    exists t'. split; [done | lia].
  - rewrite Hp'. simpl. exists r, p'. split; [done |]. split; [lia | done].
Qed.

Lemma b64_read_depth_columns_spec fb (depth_image : Image float) :
  let w := width_ depth_image in
  let h := height_ depth_image in
  (w ≤ h)%nat →
  length (data_ depth_image) = (w * h)%nat →
  ∃ out, Binary64.read_depth_columns fb depth_image = Some out ∧
         same_shape out depth_image ∧
         length (data_ out) = (w * h)%nat.
Proof.
  intros w h Hwh Hl. unfold Binary64.read_depth_columns. fold w h.
  destruct (for_loop_inv
    (λ (_ : nat) (st : list float * list float),
       length st.1 = h ∧ length st.2 = (w * h)%nat)
    (Binary64.read_column fb depth_image) w
    (replicate h 0%float, data_ depth_image))
    as ([f p] & Hrun & _ & Hpl).
  - simpl. by rewrite length_replicate.
  - intros j [f p] Hj [Hf Hp]. simpl in Hf, Hp.
    destruct (b64_read_column_spec fb depth_image j f p Hwh Hj Hf Hp)
      as (f' & p' & Hrc & Hf' & Hp').
    exists (f', p'). done.
  - rewrite Hrun. simpl. eexists; split; [done |]. simpl in Hpl.
    split; [by repeat split | done].
Qed.

Lemma b64_read_depth_spec apple fb (depth_image : Image float) :
  let w := width_ depth_image in
  let h := height_ depth_image in
  (apple = true → (w ≤ h)%nat) →
  length (data_ depth_image) = (w * h)%nat →
  ∃ out, Binary64.read_depth apple fb depth_image = Some out ∧
         same_shape out depth_image ∧
         length (data_ out) = (w * h)%nat.
Proof.
  intros w h Ha Hl. unfold Binary64.read_depth. destruct apple.
  - by apply b64_read_depth_columns_spec; [apply Ha |].
  - destruct (b64_read_depth_block_spec fb depth_image Hl)
      as (out & ? & ? & ? & _). by exists out.
Qed.

Lemma b64_convert_line_spec depth_scale z_near z_far
  (depth_image : Image float) (png : Image Z) i :
  let w := width_ depth_image in
  let h := height_ depth_image in
  num_of_channels_ depth_image = 1%nat →
  bytes_per_channel_ depth_image = 4%nat →
  width_ png = w → num_of_channels_ png = 1%nat →
  bytes_per_channel_ png = 2%nat →
  length (data_ depth_image) = (w * h)%nat →
  length (data_ png) = (w * h)%nat →
  Binary64.convertible depth_scale z_near z_far depth_image →
  (i < h)%nat →
  ∃ out,
    Binary64.convert_line depth_scale z_near z_far depth_image i png
    = Some out ∧
    same_shape out png ∧ length (data_ out) = (w * h)%nat ∧
    (∀ j, (j < w)%nat →
       ∃ d old, data_ depth_image !! (w * (h - i - 1) + j)%nat = Some d ∧
                data_ png !! (w * i + j)%nat = Some old ∧
                data_ out !! (w * i + j)%nat
                = Binary64.converted depth_scale z_near z_far d old) ∧
    (∀ k, (k < w * i ∨ w * i + w ≤ k)%nat → data_ out !! k = data_ png !! k).
Proof.
  intros w h Hdc Hdb Hpw Hpc Hpb Hdl Hpl Hconv Hi.
  unfold Binary64.convert_line.
  rewrite (typed_offset_line depth_image) by (done || lia).
  rewrite (typed_offset_line png) by (done || lia).
  rewrite Hpw. fold w h.
  destruct (for_loop_inv
    (λ n (t : Image Z),
       same_shape t png ∧ length (data_ t) = (w * h)%nat ∧
       (∀ j, (j < n)%nat →
          ∃ d old, data_ depth_image !! (w * (h - i - 1) + j)%nat = Some d ∧
                   data_ png !! (w * i + j)%nat = Some old ∧
                   data_ t !! (w * i + j)%nat
                   = Binary64.converted depth_scale z_near z_far d old) ∧
       (∀ k, (k < w * i ∨ w * i + n ≤ k)%nat → data_ t !! k = data_ png !! k))
    (Binary64.convert_pixel depth_scale z_near z_far depth_image
                            (w * (h - i - 1)) (w * i)) w png)
    as (out & Ho & HI).
  - split; [apply same_shape_refl |]. split; [done |].
    split; [intros; lia | done].
  - intros n t Hn (Hsh & Hlen & Hdone & Hrest).
    unfold Binary64.convert_pixel, load.
    destruct (lookup_lt_is_Some_2 (data_ depth_image) (w * (h - i - 1) + n)%nat)
      as [d Hd].
    { rewrite Hdl. apply cell_lt; lia. }
    destruct (lookup_lt_is_Some_2 (data_ png) (w * i + n)%nat) as [old Hold].
    { rewrite Hpl. apply cell_lt; lia. }
    rewrite Hd. simpl.
    destruct (d =? 1)%float eqn:Hone.
    + eexists; split; [done |]. split; [done |]. split; [done |]. split.
      * intros j Hj. destruct (decide (j = n)) as [->|Hne].
        -- exists d, old. split; [done |]. split; [done |].
           unfold Binary64.converted. rewrite Hone, <- Hold.
           apply Hrest. lia.
        -- apply Hdone. lia.
      * intros k Hk. apply Hrest. lia.
    + destruct (Forall_lookup_1 _ _ _ _ Hconv Hd) as [x Hx].
      unfold Binary64.converted in Hx. rewrite Hone in Hx.
      rewrite Hx. simpl.
      destruct (store_spec (data_ t) (w * i + n)%nat x)
        as (r & Hr & Hrl & Hat & Hoth).
      { rewrite Hlen. apply cell_lt; lia. }
      rewrite Hr. simpl. eexists; split; [done |].
      split; [by apply same_shape_set_data |]. split; [simpl; lia |]. split.
      * intros j Hj. simpl. destruct (decide (j = n)) as [->|Hne].
        -- exists d, old. split; [done |]. split; [done |].
           unfold Binary64.converted. by rewrite Hone, Hx.
        -- rewrite Hoth by lia. apply Hdone. lia.
      * intros k Hk. simpl. rewrite Hoth by lia. apply Hrest. lia.
  - exists out. split; [done |]. destruct HI as (? & ? & ? & ?). done.
Qed.

Lemma b64_convert_depth_spec depth_scale z_near z_far
  (depth_image : Image float) (png_image : Image Z) :
  let w := width_ depth_image in
  let h := height_ depth_image in
  num_of_channels_ depth_image = 1%nat →
  bytes_per_channel_ depth_image = 4%nat →
  width_ png_image = w → num_of_channels_ png_image = 1%nat →
  bytes_per_channel_ png_image = 2%nat →
  length (data_ depth_image) = (w * h)%nat →
  length (data_ png_image) = (w * h)%nat →
  Binary64.convertible depth_scale z_near z_far depth_image →
  ∃ out,
    Binary64.convert_depth depth_scale z_near z_far depth_image png_image
    = Some out ∧
    same_shape out png_image ∧ length (data_ out) = (w * h)%nat ∧
    ∀ i j, (i < h)%nat → (j < w)%nat →
      ∃ d old, data_ depth_image !! (w * (h - i - 1) + j)%nat = Some d ∧
               data_ png_image !! (w * i + j)%nat = Some old ∧
               data_ out !! (w * i + j)%nat
               = Binary64.converted depth_scale z_near z_far d old.
Proof.
  intros w h Hdc Hdb Hpw Hpc Hpb Hdl Hpl Hconv.
  unfold Binary64.convert_depth.
  subst w h. set (w := width_ depth_image) in *.
  set (h := height_ depth_image) in *.
  destruct (for_loop_inv
    (λ n (t : Image Z),
       same_shape t png_image ∧ length (data_ t) = (w * h)%nat ∧
       (∀ i j, (i < n)%nat → (j < w)%nat →
          ∃ d old, data_ depth_image !! (w * (h - i - 1) + j)%nat = Some d ∧
                   data_ png_image !! (w * i + j)%nat = Some old ∧
                   data_ t !! (w * i + j)%nat
                   = Binary64.converted depth_scale z_near z_far d old) ∧
       (∀ k, (w * n ≤ k)%nat → data_ t !! k = data_ png_image !! k))
    (Binary64.convert_line depth_scale z_near z_far depth_image) h png_image)
    as (out & Ho & HI).
  - split; [apply same_shape_refl |]. split; [done |].
    split; [intros; lia | done].
  - intros n t Hn (Hsh & Hlen & Hdone & Hrest).
    destruct Hsh as (Hw & Hh & Hc & Hb).
    assert (Htw : width_ t = width_ depth_image) by (rewrite Hw; exact Hpw).
    assert (Htc : num_of_channels_ t = 1%nat) by (rewrite Hc; exact Hpc).
    assert (Htb : bytes_per_channel_ t = 2%nat) by (rewrite Hb; exact Hpb).
    destruct (b64_convert_line_spec depth_scale z_near z_far depth_image t n
                Hdc Hdb Htw Htc Htb Hdl Hlen Hconv Hn)
      as (out & Ho & Hosh & Holen & Hrow & Hoth).
    fold w h in Holen, Hrow, Hoth.
    exists out. split; [done |].
    split.
    { destruct Hosh as (? & ? & ? & ?). repeat split; congruence. }
    split; [done |]. split.
    + intros i j Hi Hj. destruct (decide (i = n)) as [->|Hne].
      * destruct (Hrow j Hj) as (d & old & Hd & Hold & Hv).
        exists d, old. split; [done |]. split; [|done].
        rewrite <- Hold. symmetry. apply Hrest. lia.
      * rewrite Hoth by nia. apply Hdone; [lia | done].
    + intros k Hk. rewrite Hoth by nia. apply Hrest. nia.
  - exists out. split; [done |]. destruct HI as (? & ? & ? & ?). done.
Qed.

Lemma b64_depth_readback_spec {I E} sv draw apple
  (v : Binary64.Visualizer I E) do_render :
  let v' := Binary64.render_if sv draw do_render v in
  let w := Binary64.GetWindowWidth (Binary64.view_control_ptr_ v') in
  let h := Binary64.GetWindowHeight (Binary64.view_control_ptr_ v') in
  (apple = true → (w ≤ h)%nat) →
  ∃ depth_image,
    Binary64.depth_readback sv draw apple v do_render
    = Some (v', depth_image) ∧
    same_shape depth_image (PrepareImage 0%float w h 1 4) ∧
    length (data_ depth_image) = (w * h)%nat ∧
    (apple = false →
     ∀ i j, (i < h)%nat → (j < w)%nat →
            pixel depth_image i j
            = Some (Binary64.depth_at (Binary64.front_buffer v') j i)).
Proof.
  intros v' w h Ha. unfold Binary64.depth_readback.
  destruct (b64_render_if_window sv draw do_render v) as [Hw Hh].
  fold v' w h in Hw, Hh. rewrite <- Hw, <- Hh. fold v'.
  destruct apple.
  - destruct (b64_read_depth_spec true (Binary64.front_buffer v')
                (PrepareImage 0%float w h 1 4))
      as (out & Ho & Hsh & Hl).
    { exact Ha. }
    { rewrite PrepareImage_length. simpl. lia. }
    rewrite Ho. simpl. exists out. done.
  - destruct (b64_read_depth_block_spec (Binary64.front_buffer v')
                (PrepareImage 0%float w h 1 4))
      as (out & Ho & Hsh & Hl & Hplane).
    { rewrite PrepareImage_length. simpl. lia. }
    unfold Binary64.read_depth. rewrite Ho. simpl. exists out. done.
Qed.

Lemma b64_CaptureDepthImage_unfold {I E} timestamp sv draw apple
  (v : Binary64.Visualizer I E) filename do_render depth_scale :
  Binary64.CaptureDepthImage timestamp sv draw apple v filename do_render
                             depth_scale
  = p ← Binary64.depth_images sv draw apple v do_render depth_scale;
    Some (p.1.1,
          WriteImage (capture_names timestamp "DepthCapture_" "DepthCamera_"
                                    filename).1 p.2
          :: Binary64.write_camera
               (capture_names timestamp "DepthCapture_" "DepthCamera_"
                              filename).2 p.1.1).
Proof.
  unfold Binary64.CaptureDepthImage.
  destruct (capture_names timestamp "DepthCapture_" "DepthCamera_" filename).
  destruct (Binary64.depth_images sv draw apple v do_render depth_scale)
    as [[[a b] c]|]; done.
Qed.

(** Once the raw image is read back and all of its samples convert, the
    capture goes through, and each sample of the image written comes from the
    raw sample in the mirrored line and the same column. *)
Lemma b64_capture_spec {I E} timestamp sv draw apple
  (v : Binary64.Visualizer I E) filename do_render depth_scale depth_image :
  let v' := Binary64.render_if sv draw do_render v in
  let vc := Binary64.view_control_ptr_ v' in
  let w := Binary64.GetWindowWidth vc in
  let h := Binary64.GetWindowHeight vc in
  Binary64.depth_readback sv draw apple v do_render = Some (v', depth_image) →
  same_shape depth_image (PrepareImage 0%float w h 1 4) →
  length (data_ depth_image) = (w * h)%nat →
  Binary64.convertible depth_scale (Binary64.GetZNear vc) (Binary64.GetZFar vc)
                       depth_image →
  ∃ png_image,
    Binary64.captures_depth timestamp sv draw apple v filename do_render
                            depth_scale depth_image png_image ∧
    same_shape png_image (PrepareImage 0%Z w h 1 2) ∧
    length (data_ png_image) = (w * h)%nat ∧
    ∀ i j, (i < h)%nat → (j < w)%nat →
      ∃ d, pixel depth_image (h - i - 1) j = Some d ∧
           pixel png_image i j
           = Binary64.converted depth_scale (Binary64.GetZNear vc)
                                (Binary64.GetZFar vc) d 0.
Proof.
  intros v' vc w h Hread Hsh Hlen Hconv.
  destruct Hsh as (Hw & Hh & Hc & Hb). simpl in Hw, Hh, Hc, Hb.
  destruct (b64_convert_depth_spec depth_scale (Binary64.GetZNear vc)
              (Binary64.GetZFar vc) depth_image (PrepareImage 0%Z w h 1 2))
    as (out & Ho & Hosh & Holen & Hpix); try done.
  { rewrite Hw, Hh. lia. }
  { rewrite PrepareImage_length, Hw, Hh. lia. }
  rewrite Hw, Hh in Holen, Hpix.
  assert (Himgs : Binary64.depth_images sv draw apple v do_render depth_scale
                  = Some (v', depth_image, out)).
  { unfold Binary64.depth_images. rewrite Hread. simpl. fold vc w h.
    by rewrite Ho. }
  exists out. split.
  { split; [done |]. rewrite b64_CaptureDepthImage_unfold.
    fold v'. rewrite Himgs. simpl. eauto. }
  split; [done |]. split; [done |].
  intros i j Hi Hj. destruct (Hpix i j Hi Hj) as (d & old & Hd & Hold & Hv).
  exists d. unfold pixel. rewrite Hw.
  destruct Hosh as (Hw' & _). simpl in Hw'. rewrite Hw'.
  rewrite (Nat.mul_comm (h - i - 1) w), (Nat.mul_comm i w).
  split; [done |]. rewrite Hv.
  apply lookup_replicate_1 in Hold. by destruct Hold as [-> _].
Qed.

Lemma b64_quantize_Some depth_scale z x :
  Binary64.quantize depth_scale z = Some x →
  ∃ r, Binary64.round (depth_scale * z)%float = Some r ∧
       (0 ≤ r ≤ 65535)%Z ∧ x = Z.min r 32767.
Proof.
  unfold Binary64.quantize. intros H.
  destruct (Binary64.round _) as [r|]; [|done]. simpl in H.
  unfold Binary64.to_uint16 in H at 1.
  destruct (_ && _) eqn:Hr; [|done]. simpl in H. injection H as <-.
  apply andb_prop in Hr as [H0 H1].
  exists r. split; [done |]. split; [lia | done].
Qed.

(** ** The capture functions *)

(** C3: in a depth capture, as computed in binary64, the raw depth image is
    read back, and if all of its samples convert, the capture goes through and
    a pixel whose raw depth [d] is not 1 gets the sample made of the value
    [2 * z_near * z_far / (z_far + z_near - (2 d - 1) * (z_far - z_near))],
    with the near and far distances the view control has after the optional
    rendering: that value times [depth_scale], rounded, lies in [[0, 65535]]
    and its minimum with 32767 is the sample.
    Where the plane is read column by column the window is taken at least as
    high as it is wide, so that the transfers stay inside [float_buffer]. *)
Theorem depth_reconstruction_formula {I E} timestamp
  (set_view : Binary64.ViewControl I E → Binary64.View I E)
  (draw : Binary64.ViewControl I E → Binary64.FrameBuffer) apple
  (v : Binary64.Visualizer I E) filename do_render depth_scale :
  let v' := Binary64.render_if set_view draw do_render v in
  let vc := Binary64.view_control_ptr_ v' in
  let w := Binary64.GetWindowWidth vc in
  let h := Binary64.GetWindowHeight vc in
  let z_near := Binary64.GetZNear vc in
  let z_far := Binary64.GetZFar vc in
  (apple = true → (w ≤ h)%nat) →
  ∃ depth_image,
    Binary64.depth_readback set_view draw apple v do_render
    = Some (v', depth_image) ∧
    (Binary64.convertible depth_scale z_near z_far depth_image →
     ∃ png_image,
       Binary64.captures_depth timestamp set_view draw apple v filename
                               do_render depth_scale depth_image png_image ∧
       ∀ i j d, (i < h)%nat → (j < w)%nat →
         pixel depth_image (h - i - 1) j = Some d →
         (d =? 1)%float = false →
         ∃ r,
           Binary64.round
             (depth_scale
              * (2 * z_near * z_far
                 / (z_far + z_near - (2 * d - 1) * (z_far - z_near))))%float
           = Some r ∧
           (0 ≤ r ≤ 65535)%Z ∧
           pixel png_image i j = Some (Z.min r 32767)).
Proof.
  intros v' vc w h z_near z_far Ha.
  destruct (b64_depth_readback_spec set_view draw apple v do_render Ha)
    as (di & Hread & Hsh & Hlen & _).
  exists di. split; [done |]. intros Hconv.
  destruct (b64_capture_spec timestamp set_view draw apple v filename
              do_render depth_scale di Hread Hsh Hlen Hconv)
    as (png & Hcap & Hpsh & Hplen & Hpix).
  exists png. split; [done |].
  intros i j d Hi Hj Hd Hone.
  destruct (Hpix i j Hi Hj) as (d' & Hd' & Hv).
  fold v' vc w h in Hd'. rewrite Hd in Hd'. injection Hd' as <-.
  unfold Binary64.converted in Hv. rewrite Hone in Hv.
  destruct (lookup_lt_is_Some_2 (data_ png) (i * width_ png + j)%nat)
    as [x Hx].
  { destruct Hpsh as (-> & _). simpl. rewrite Hplen.
    pose proof (cell_lt w h i j Hi Hj) as Hcell.
    fold v' vc w h. rewrite (Nat.mul_comm i w). exact Hcell. }
  unfold pixel in Hv |- *. rewrite Hx in Hv |- *.
  destruct (b64_quantize_Some _ _ _ (eq_sym Hv)) as (r & Hr & Hrange & ->).
  exists r. done.
Qed.

(** C4: in a depth capture, a pixel whose raw depth is exactly 1 has the
    sample 0 in the image written, whatever the near and far distances and
    the depth scale are, and the capture goes through.
    Where the plane is read column by column the window is taken at least as
    high as it is wide, so that the transfers stay inside [float_buffer]. *)
Theorem no_hit_sample_is_zero {I E} timestamp
  (set_view : ViewControl I E → View I E)
  (draw : ViewControl I E → FrameBuffer) apple (v : Visualizer I E)
  filename do_render depth_scale :
  let vc := view_control_ptr_ (render_if set_view draw do_render v) in
  let w := GetWindowWidth vc in
  let h := GetWindowHeight vc in
  (apple = true → (w ≤ h)%nat) →
  ∃ depth_image png_image,
    captures_depth timestamp set_view draw apple v filename do_render
                   depth_scale
                   depth_image png_image ∧
    ∀ i j d, (i < h)%nat → (j < w)%nat →
             pixel depth_image (h - i - 1) j = Some d → d == 1 →
             pixel png_image i j = Some 0%Z.
Proof.
  intros vc w h Ha.
  destruct (CaptureDepthImage_spec timestamp set_view draw apple v filename
              do_render depth_scale Ha)
    as (di & pi & Hcap & _ & _ & _ & _ & Hpix).
  exists di, pi. split; [done |].
  intros i j d Hi Hj Hd Hone.
  destruct (Hpix i j Hi Hj) as (d' & Hd' & Hv).
  fold vc w h in Hd'. rewrite Hd in Hd'. injection Hd' as <-.
  rewrite Hv. unfold converted. by rewrite (Qeq_eq_bool _ _ Hone).
Qed.

(** C9: every sample of the image a depth capture writes lies between 0 and
    32767, for every depth scale and every near and far distance.
    Where the plane is read column by column the window is taken at least as
    high as it is wide, so that the transfers stay inside [float_buffer]. *)
Theorem depth_samples_at_most_int16_max {I E} timestamp
  (set_view : ViewControl I E → View I E)
  (draw : ViewControl I E → FrameBuffer) apple (v : Visualizer I E)
  filename do_render depth_scale :
  let vc := view_control_ptr_ (render_if set_view draw do_render v) in
  (apple = true → (GetWindowWidth vc ≤ GetWindowHeight vc)%nat) →
  ∃ depth_image png_image,
    captures_depth timestamp set_view draw apple v filename do_render
                   depth_scale
                   depth_image png_image ∧
    Forall (λ s, (0 ≤ s ≤ 32767)%Z) (data_ png_image).
Proof.
  intros vc Ha.
  destruct (CaptureDepthImage_spec timestamp set_view draw apple v filename
              do_render depth_scale Ha)
    as (di & pi & Hcap & _ & Hsh & _ & Hlen & Hpix).
  exists di, pi. split; [done |].
  fold vc in Hlen, Hpix, Hsh.
  set (w := GetWindowWidth vc) in *. set (h := GetWindowHeight vc) in *.
  apply Forall_lookup. intros k s Hk.
  assert (Hlt : (k < w * h)%nat) by (rewrite <- Hlen; by eapply lookup_lt_Some).
  assert (Hpos : (0 < w)%nat) by nia.
  destruct (cell_split w k Hpos) as (i & j & -> & Hj).
  assert (Hi : (i < h)%nat) by nia.
  destruct (Hpix i j Hi Hj) as (d & _ & Hv).
  unfold pixel in Hv. destruct Hsh as (Hw & _). simpl in Hw.
  rewrite Hw, (Nat.mul_comm i w), Hk in Hv.
  unfold converted in Hv. destruct (Qeq_bool d 1).
  - injection Hv as ->. lia.
  - injection Hv as ->. apply quantize_range.
Qed.

(** C5: the image written is the vertical flip of the buffer read back.
    Colour capture: the staging buffer and the image written both have the
    window's size with three one-byte channels and [w * h * 3] bytes, and
    line [i] of the image is, byte for byte, the whole line [height - 1 - i]
    of the staging buffer.  Depth capture, in binary64: the raw image has the
    window's size, and if its samples convert, the image written has the
    window's size with [w * h] samples and its sample at line [i] is
    converted from the raw sample at line [height - 1 - i] of the same column.
    Flipping either image written reverses its lines, and flipping it again
    gives it back.
    Where the plane is read column by column the window is taken at least as
    high as it is wide, so that the transfers stay inside [float_buffer]. *)
Theorem capture_is_vertical_flip {I E} timestamp
  (set_view : ViewControl I E → View I E)
  (draw : ViewControl I E → FrameBuffer) (v : Visualizer I E)
  (set_view64 : Binary64.ViewControl I E → Binary64.View I E)
  (draw64 : Binary64.ViewControl I E → Binary64.FrameBuffer) apple
  (v64 : Binary64.Visualizer I E)
  filename do_render depth_scale :
  let vc := view_control_ptr_ (render_if set_view draw do_render v) in
  let w := GetWindowWidth vc in
  let h := GetWindowHeight vc in
  let v64' := Binary64.render_if set_view64 draw64 do_render v64 in
  let vc64 := Binary64.view_control_ptr_ v64' in
  let w64 := Binary64.GetWindowWidth vc64 in
  let h64 := Binary64.GetWindowHeight vc64 in
  (apple = true → (w64 ≤ h64)%nat) →
  (∃ screen_image png_image,
     captures_screen timestamp set_view draw v filename do_render
                     screen_image png_image ∧
     same_shape screen_image (PrepareImage 0%Z w h 3 1) ∧
     same_shape png_image (PrepareImage 0%Z w h 3 1) ∧
     length (data_ screen_image) = (w * h * 3)%nat ∧
     length (data_ png_image) = (w * h * 3)%nat ∧
     (∀ i, (i < h)%nat →
           line png_image i = line screen_image (h - 1 - i) ∧
           length (line png_image i) = (w * 3)%nat) ∧
     flip_vertical 0%Z png_image
     = flip_rows png_image (PrepareImage 0%Z w h 3 1) ∧
     flips_back 0%Z png_image) ∧
  (∃ depth_image,
     Binary64.depth_readback set_view64 draw64 apple v64 do_render
     = Some (v64', depth_image) ∧
     same_shape depth_image (PrepareImage 0%float w64 h64 1 4) ∧
     length (data_ depth_image) = (w64 * h64)%nat ∧
     (Binary64.convertible depth_scale (Binary64.GetZNear vc64)
                           (Binary64.GetZFar vc64) depth_image →
      ∃ png_image,
        Binary64.captures_depth timestamp set_view64 draw64 apple v64 filename
                                do_render depth_scale depth_image png_image ∧
        same_shape png_image (PrepareImage 0%Z w64 h64 1 2) ∧
        length (data_ png_image) = (w64 * h64)%nat ∧
        (∀ i j, (i < h64)%nat → (j < w64)%nat →
           ∃ d, pixel depth_image (h64 - 1 - i) j = Some d ∧
                pixel png_image i j
                = Binary64.converted depth_scale (Binary64.GetZNear vc64)
                                     (Binary64.GetZFar vc64) d 0) ∧
        flips_back 0%Z png_image)).
Proof.
  intros vc w h v64' vc64 w64 h64 Ha. split.
  - destruct (CaptureScreenImage_spec timestamp set_view draw v filename
                do_render)
      as (si & pi & Hcap & Hssh & Hpsh & Hsl & Hpl & Hrows).
    fold vc w h in Hssh, Hpsh, Hsl, Hpl, Hrows.
    exists si, pi. split; [done |]. split; [done |]. split; [done |].
    split; [done |]. split; [done |].
    assert (Hsn : BytesPerLine si = (w * 3 * 1)%nat)
      by (by rewrite (shape_BytesPerLine _ _ Hssh)).
    assert (Hpn : BytesPerLine pi = (w * 3 * 1)%nat)
      by (by rewrite (shape_BytesPerLine _ _ Hpsh)).
    destruct Hpsh as (Hpw & Hph & Hpc & Hpb). simpl in Hpw, Hph, Hpc, Hpb.
    split; [|split].
    + intros i Hi. split.
      * apply list_eq. intros c.
        destruct (decide (c < w * 3 * 1)%nat) as [Hc|Hc].
        -- rewrite !line_lookup by lia. rewrite Hsn, Hpn.
           rewrite Hrows by done. f_equal. f_equal. lia.
        -- rewrite !line_lookup_ge by lia. done.
      * unfold line. rewrite length_take, length_drop, Hpn, Hpl. nia.
    + rewrite flip_vertical_bytes by done. by rewrite Hpw, Hph, Hpc, Hpb.
    + apply flip_vertical_twice; [lia |]. rewrite Hpw, Hph, Hpc, Hpl. lia.
  - destruct (b64_depth_readback_spec set_view64 draw64 apple v64 do_render Ha)
      as (di & Hread & Hsh & Hlen & _).
    fold v64' vc64 w64 h64 in Hsh, Hlen.
    exists di. split; [done |]. split; [done |]. split; [done |].
    intros Hconv.
    destruct (b64_capture_spec timestamp set_view64 draw64 apple v64 filename
                do_render depth_scale di Hread Hsh Hlen Hconv)
      as (png & Hcap & Hpsh & Hplen & Hpix).
    fold v64' vc64 w64 h64 in Hpsh, Hplen, Hpix.
    exists png. split; [done |]. split; [done |]. split; [done |]. split.
    + intros i j Hi Hj.
      replace (h64 - 1 - i)%nat with (h64 - i - 1)%nat by lia. by apply Hpix.
    + destruct Hpsh as (Hpw & Hph & Hpc & Hpb). simpl in Hpw, Hph, Hpc, Hpb.
      apply flip_vertical_twice; [lia |]. rewrite Hpw, Hph, Hpc, Hplen. lia.
Qed.

(** C7: called with an empty file name a capture writes the image as
    [ScreenCapture_<timestamp>.png] (resp. [DepthCapture_<timestamp>.png]) and
    the camera as [ScreenCamera_<timestamp>.json] (resp.
    [DepthCamera_<timestamp>.json]), both with the same time stamp; called
    with another file name it writes the image under that name and nothing
    else.
    Where the plane is read column by column the window is taken at least as
    high as it is wide, so that the transfers stay inside [float_buffer]. *)
Theorem capture_files_written {I E} timestamp
  (set_view : ViewControl I E → View I E)
  (draw : ViewControl I E → FrameBuffer) apple (v : Visualizer I E)
  filename do_render depth_scale :
  let vc := view_control_ptr_ (render_if set_view draw do_render v) in
  let v' := render_if set_view draw do_render v in
  let camera :=
    mkTrajectory (ConvertToPinholeCameraParameters vc).1
                 [(ConvertToPinholeCameraParameters vc).2] in
  (apple = true → (GetWindowWidth vc ≤ GetWindowHeight vc)%nat) →
  ∃ screen_png depth_png,
    CaptureScreenImage timestamp set_view draw v filename do_render
    = Some (v',
            if empty filename
            then [WriteImage
                    (String.append "ScreenCapture_"
                                   (String.append timestamp ".png"))
                    screen_png;
                  WriteIJsonConvertible
                    (String.append "ScreenCamera_"
                                   (String.append timestamp ".json"))
                    camera]
            else [WriteImage filename screen_png]) ∧
    CaptureDepthImage timestamp set_view draw apple v filename do_render
                      depth_scale
    = Some (v',
            if empty filename
            then [WriteImage
                    (String.append "DepthCapture_"
                                   (String.append timestamp ".png"))
                    depth_png;
                  WriteIJsonConvertible
                    (String.append "DepthCamera_"
                                   (String.append timestamp ".json"))
                    camera]
            else [WriteImage filename depth_png]).
Proof.
  intros vc v' camera Ha.
  destruct (CaptureScreenImage_spec timestamp set_view draw v filename
              do_render)
    as (si & spng & [Hs _] & _).
  destruct (CaptureDepthImage_spec timestamp set_view draw apple v filename
              do_render depth_scale Ha)
    as (di & dpng & [Hd _] & _).
  exists spng, dpng.
  rewrite CaptureScreenImage_unfold, CaptureDepthImage_unfold, Hs, Hd.
  subst v' camera. unfold capture_names, write_camera.
  cbn [fst snd mbind option_bind]. fold vc.
  destruct (ConvertToPinholeCameraParameters vc) as [ci ce].
  destruct filename; simpl; done.
Qed.

(** C8: for a window of width [w] and height [h] the staging and the output
    buffer of a colour capture hold [w * h * 3] bytes each, the raw depth
    buffer holds [w * h * 4] bytes and the depth output holds [w * h * 2]
    bytes, and each buffer is as large as its row stride times its height.
    Where the plane is read column by column the window is taken at least as
    high as it is wide, so that the transfers stay inside [float_buffer]. *)
Theorem capture_buffer_sizes {I E} timestamp
  (set_view : ViewControl I E → View I E)
  (draw : ViewControl I E → FrameBuffer) apple (v : Visualizer I E)
  filename do_render depth_scale :
  let vc := view_control_ptr_ (render_if set_view draw do_render v) in
  let w := GetWindowWidth vc in
  let h := GetWindowHeight vc in
  (apple = true → (w ≤ h)%nat) →
  ∃ screen_image screen_png depth_image depth_png,
    captures_screen timestamp set_view draw v filename do_render
                    screen_image screen_png ∧
    captures_depth timestamp set_view draw apple v filename do_render
                   depth_scale
                   depth_image depth_png ∧
    (data_size screen_image = (w * h * 3)%nat ∧
     data_size screen_image
     = (BytesPerLine screen_image * height_ screen_image)%nat) ∧
    (data_size screen_png = (w * h * 3)%nat ∧
     data_size screen_png = (BytesPerLine screen_png * height_ screen_png)%nat) ∧
    (data_size depth_image = (w * h * 4)%nat ∧
     data_size depth_image
     = (BytesPerLine depth_image * height_ depth_image)%nat) ∧
    (data_size depth_png = (w * h * 2)%nat ∧
     data_size depth_png = (BytesPerLine depth_png * height_ depth_png)%nat).
Proof.
  intros vc w h Ha.
  destruct (CaptureScreenImage_spec timestamp set_view draw v filename
              do_render)
    as (si & spng & Hs & Hssh & Hpsh & Hsl & Hpl & _).
  destruct (CaptureDepthImage_spec timestamp set_view draw apple v filename
              do_render depth_scale Ha)
    as (di & dpng & Hd & Hdsh & Hdpsh & Hdl & Hdpl & _).
  fold vc w h in Hssh, Hpsh, Hsl, Hpl, Hdsh, Hdpsh, Hdl, Hdpl.
  exists si, spng, di, dpng. split; [done |]. split; [done |].
  unfold data_size.
  rewrite (shape_BytesPerLine _ _ Hssh), (shape_BytesPerLine _ _ Hpsh),
          (shape_BytesPerLine _ _ Hdsh), (shape_BytesPerLine _ _ Hdpsh).
  destruct Hssh as (_ & -> & _ & ->). destruct Hpsh as (_ & -> & _ & ->).
  destruct Hdsh as (_ & -> & _ & ->). destruct Hdpsh as (_ & -> & _ & ->).
  rewrite Hsl, Hpl, Hdl, Hdpl. unfold BytesPerLine. simpl. lia.
Qed.


(** ** The reconstruction and the projection *)

(** C6: for [0 < z_near < z_far] and a normalized depth [d] in [[0,1)], the
    forward projection of the reconstructed depth is [d] again. *)
Theorem depth_round_trip z_near z_far d :
  0 < z_near → z_near < z_far → 0 <= d → d < 1 →
  Depth.forward_projection z_near z_far (Depth.z_depth z_near z_far d) == d.
Proof.
  intros Hn Hf Hd0 Hd1.
  assert (Hlo : 2 * z_near <= Depth.z_denominator z_near z_far d)
    by (apply z_denominator_bounds; lra).
  unfold Depth.forward_projection, Depth.z_depth.
  unfold Depth.z_denominator in *.
  field. repeat split.
  - lra.
  - intros H. lra.
  - intros H. clear Hlo. nra.
  - intros H. clear Hlo. nra.
Qed.



(** The second input of the same: the quotient underflows. *)
Lemma depth_not_positive_in_binary64 :
  (0 <? 0x1p-1074)%float = true ∧ (0x1p-1074 <? 0.25)%float = true ∧
  (0 <? Binary64.z_denominator 0x1p-1074 0.25 0)%float = true ∧
  (Binary64.z_depth 0x1p-1074 0.25 0 =? 0)%float = true.
Proof. vm_compute. repeat split; reflexivity. Qed.

(** ** Evaluations *)

(** C1, on the window of one pixel seventy units away captured with the
    default depth scale 1000: the rounded value is 70000, above 32767, and the
    sample written is 4464, which is 70000 modulo 65536: the conversion to
    [uint16_t] comes before the minimum with 32767. *)
Theorem quantization_wraps_before_clamp :
  Depth.round (1000 * Depth.z_depth 70 100 0) = 70000%Z ∧
  (32767 < Depth.round (1000 * Depth.z_depth 70 100 0))%Z ∧
  Depth.quantize 1000 (Depth.z_depth 70 100 0) = 4464%Z ∧
  (λ r, written_images r.2)
    <$> CaptureDepthImage "T" view_ (λ _, distant_front) false
                          distant_visualizer
                          "depth.png" true 1000
  = Some [("depth.png"%string, mkImage 1 1 1 2 [4464%Z])].
Proof. vm_compute. repeat split; reflexivity. Qed.

(** C2, on the window one pixel wide and two pixels high: the transfer of the
    column asks for [width_], that is one, row; the upper sample of
    [float_buffer] stays zero and so does the upper sample of the depth image,
    where the transfer of the whole block has the depth of the upper pixel. *)
Theorem column_transfer_reads_width_rows :
  glReadPixels_DEPTH tall_front 0 0 1 (width_ tall_image)
                     (replicate (height_ tall_image) (0 : Q))
  = Some [1 # 4; 0] ∧
  data_ <$> read_depth true tall_front tall_image = Some [1 # 4; 0] ∧
  data_ <$> read_depth false tall_front tall_image = Some [1 # 4; 1 # 2].
Proof. vm_compute. repeat split; reflexivity. Qed.

(** ** Instances on the window of two by two pixels *)

Lemma depth_reconstruction_formula_witness :
  ∃ depth_image png_image,
    Binary64.captures_depth "T" Binary64.example_matrices Binary64.example_draw
      false Binary64.example_visualizer "" true 100%float
      depth_image png_image ∧
    pixel depth_image 1 1 = Some 0.5%float ∧
    pixel png_image 0 1 = Some 127%Z.
Proof.
  destruct (depth_reconstruction_formula "T" Binary64.example_matrices
              Binary64.example_draw false Binary64.example_visualizer ""
              true 100%float)
    as (di & Hread & Hpng).
  { discriminate. }
  vm_compute in Hread. injection Hread as <-.
  destruct Hpng as (pi & Hcap & Hpix).
  { repeat constructor; vm_compute; eauto. }
  eexists _, pi. split; [exact Hcap |]. split; [reflexivity |].
  destruct (Hpix 0%nat 1%nat 0.5%float) as (r & Hr & _ & Hv).
  - simpl. lia.
  - simpl. lia.
  - reflexivity.
  - reflexivity.
  - vm_compute in Hr. injection Hr as <-. exact Hv.
Defined.

Lemma no_hit_sample_is_zero_witness :
  ∃ depth_image png_image,
    captures_depth "T" example_matrices example_draw false example_visualizer
                   "" true 1000
                   depth_image png_image ∧
    pixel depth_image 1 0 = Some 1 ∧
    pixel png_image 0 0 = Some 0%Z.
Proof.
  destruct (no_hit_sample_is_zero "T" example_matrices example_draw false
              example_visualizer "" true 1000)
    as (di & pi & Hcap & Hpix).
  { discriminate. }
  exists di, pi. split; [exact Hcap |].
  assert (Hraw : pixel di 1 0 = Some 1).
  { destruct Hcap as [Hd _]. vm_compute in Hd. injection Hd as <- <-.
    reflexivity. }
  split; [exact Hraw |].
  apply (Hpix 0%nat 0%nat 1).
  - simpl. lia.
  - simpl. lia.
  - exact Hraw.
  - reflexivity.
Defined.

Lemma depth_samples_at_most_int16_max_witness :
  ∃ depth_image png_image,
    captures_depth "T" example_matrices example_draw false example_visualizer
                   "" true 1000
                   depth_image png_image ∧
    Forall (λ s, (0 ≤ s ≤ 32767)%Z) (data_ png_image).
Proof.
  apply (depth_samples_at_most_int16_max "T" example_matrices example_draw false
           example_visualizer "" true 1000).
  discriminate.
Defined.

Lemma capture_is_vertical_flip_witness :
  (∃ screen_image png_image,
     captures_screen "T" example_matrices example_draw example_visualizer ""
                     true screen_image png_image ∧
     length (data_ png_image) = 12%nat ∧
     line png_image 0 = line screen_image 1 ∧
     length (line png_image 0) = 6%nat) ∧
  (∃ depth_image png_image,
     Binary64.captures_depth "T" Binary64.example_matrices
       Binary64.example_draw false Binary64.example_visualizer "" true
       100%float depth_image png_image ∧
     length (data_ png_image) = 4%nat ∧
     ∃ d, pixel depth_image 1 1 = Some d ∧
          pixel png_image 0 1
          = Binary64.converted 100%float 0.75%float 4.25%float d 0).
Proof.
  destruct (capture_is_vertical_flip "T" example_matrices example_draw
              example_visualizer Binary64.example_matrices
              Binary64.example_draw false Binary64.example_visualizer ""
              true 100%float)
    as [(si & pi & Hs & _ & _ & _ & Hlen & Hline & _)
        (di & Hread & _ & _ & Hpng)].
  { discriminate. }
  split.
  - exists si, pi. split; [exact Hs |]. split; [exact Hlen |].
    apply (Hline 0%nat). simpl. lia.
  - vm_compute in Hread. injection Hread as <-.
    destruct Hpng as (png & Hcap & _ & Hplen & Hpix & _).
    { repeat constructor; vm_compute; eauto. }
    eexists _, png. split; [exact Hcap |]. split; [exact Hplen |].
    apply (Hpix 0 1)%nat; simpl; lia.
Defined.

Lemma capture_files_written_witness :
  ∃ screen_png depth_png,
    CaptureScreenImage "T" example_matrices example_draw example_visualizer
                       "" true
    = Some (render_if example_matrices example_draw true example_visualizer,
            [WriteImage "ScreenCapture_T.png" screen_png;
             WriteIJsonConvertible "ScreenCamera_T.json"
                                   (mkTrajectory tt [tt])]) ∧
    CaptureDepthImage "T" example_matrices example_draw false
                      example_visualizer "" true 1000
    = Some (render_if example_matrices example_draw true example_visualizer,
            [WriteImage "DepthCapture_T.png" depth_png;
             WriteIJsonConvertible "DepthCamera_T.json"
                                   (mkTrajectory tt [tt])]).
Proof.
  apply (capture_files_written "T" example_matrices example_draw false
                               example_visualizer ""
                               true 1000).
  discriminate.
Defined.

Lemma capture_buffer_sizes_witness :
  ∃ screen_image screen_png depth_image depth_png,
    captures_screen "T" example_matrices example_draw example_visualizer ""
                     true
                    screen_image screen_png ∧
    captures_depth "T" example_matrices example_draw false example_visualizer
                   "" true 1000
                   depth_image depth_png ∧
    data_size screen_image = 12%nat ∧ data_size screen_png = 12%nat ∧
    data_size depth_image = 16%nat ∧ data_size depth_png = 8%nat.
Proof.
  destruct (capture_buffer_sizes "T" example_matrices example_draw false
                                 example_visualizer ""
                                 true 1000)
    as (si & sp & di & dp & Hs & Hd & [H1 _] & [H2 _] & [H3 _] & [H4 _]).
  { discriminate. }
  exists si, sp, di, dp.
  split; [exact Hs |]. split; [exact Hd |]. split; [exact H1 |].
  split; [exact H2 |]. split; [exact H3 | exact H4].
Defined.

Lemma depth_round_trip_witness :
  Depth.forward_projection (1 # 10) 100 (Depth.z_depth (1 # 10) 100 (1 # 2))
  == 1 # 2.
Proof. apply depth_round_trip; reflexivity || discriminate. Defined.


(** * Further properties *)

(** ** The conversion to sixteen bits *)

(** X6: where the rounded value is between 0 and 32767 the sample is that
    value, and where it is above 32767 but still fits 16 bits the sample is
    32767. *)
Theorem quantize_clamps_within_uint16 depth_scale z :
  ((0 ≤ Depth.round (depth_scale * z) ≤ 32767)%Z →
   Depth.quantize depth_scale z = Depth.round (depth_scale * z)) ∧
  ((32767 < Depth.round (depth_scale * z) < 65536)%Z →
   Depth.quantize depth_scale z = 32767%Z).
Proof.
  split; intros H; rewrite quantize_small by lia; lia.
Qed.

(** ** What the images show of the front buffer *)

Lemma row_lookup_n {A} (f : nat → list A) n x w c k :
  (∀ c, length (f c) = n) → (c < w)%nat → (k < n)%nat →
  flat_map f (seq x w) !! (c * n + k)%nat = f (x + c)%nat !! k.
Proof.
  intros Hn. revert x c. induction w as [|w IH]; intros x c Hc Hk; [lia |].
  simpl. destruct c as [|c].
  - rewrite lookup_app_l by (rewrite Hn; lia). by rewrite Nat.add_0_r.
  - rewrite lookup_app_r by (rewrite Hn; lia). rewrite Hn.
    replace (Datatypes.S c * n + k - n)%nat with (c * n + k)%nat by lia.
    rewrite IH by lia. f_equal. f_equal. lia.
Qed.

Lemma read_block_lookup_n {A} (px : nat → nat → list A) n x y w h r c k :
  (∀ c r, length (px c r) = n) →
  (r < h)%nat → (c < w)%nat → (k < n)%nat →
  read_block px x y w h !! ((r * w + c) * n + k)%nat
  = px (x + c)%nat (y + r)%nat !! k.
Proof.
  intros Hn. unfold read_block. revert y r.
  induction h as [|h IH]; intros y r Hr Hc Hk; [lia |].
  simpl.
  assert (Hlen : length (flat_map (λ c0, px c0 y) (seq x w)) = (w * n)%nat).
  { rewrite (flat_map_constant_length (c := n)).
    - by rewrite length_seq.
    - intros; apply Hn. }
  destruct r as [|r].
  - rewrite lookup_app_l by (rewrite Hlen; nia). simpl.
    rewrite (row_lookup_n (λ c0, px c0 y) n) by done. by rewrite Nat.add_0_r.
  - rewrite lookup_app_r by (rewrite Hlen; nia). rewrite Hlen.
    replace ((Datatypes.S r * w + c) * n + k - w * n)%nat
      with ((r * w + c) * n + k)%nat by nia.
    rewrite IH by lia. f_equal. f_equal. lia.
Qed.

Lemma glReadPixels_RGB_lookup fb x y w h dst out r c k :
  glReadPixels_RGB fb x y w h dst = Some out →
  (r < h)%nat → (c < w)%nat → (k < 3)%nat →
  out !! ((r * w + c) * 3 + k)%nat
  = channel (color_at fb (x + c) (y + r)) k.
Proof.
  unfold glReadPixels_RGB, write_pixels. intros Ho Hr Hc Hk.
  destruct (decide _) as [Hle|]; [|done]. injection Ho as <-.
  rewrite (length_read_block _ 3) in Hle by done.
  rewrite lookup_app_l by (rewrite (length_read_block _ 3) by done; nia).
  by rewrite (read_block_lookup_n _ 3).
Qed.

Lemma screen_images_staging {I E} sv draw (v : Visualizer I E) do_render
  v' si pi :
  screen_images sv draw v do_render = Some (v', si, pi) →
  v' = render_if sv draw do_render v ∧
  glReadPixels_RGB (front_buffer v') 0 0
    (GetWindowWidth (view_control_ptr_ v'))
    (GetWindowHeight (view_control_ptr_ v'))
    (data_ (PrepareImage 0%Z (GetWindowWidth (view_control_ptr_ v))
              (GetWindowHeight (view_control_ptr_ v)) 3 1))
  = Some (data_ si).
Proof.
  unfold screen_images. intros H.
  destruct (glReadPixels_RGB _ _ _ _ _ _) as [d|] eqn:Hd; [|done].
  simpl in H. destruct (flip_rows _ _) as [out|]; [|done].
  simpl in H. injection H as <- <- <-. done.
Qed.

Lemma depth_images_staging {I E} sv draw apple (v : Visualizer I E) do_render
  depth_scale v' di pi :
  depth_images sv draw apple v do_render depth_scale = Some (v', di, pi) →
  v' = render_if sv draw do_render v ∧
  read_depth apple (front_buffer v')
    (PrepareImage (0 : Q) (GetWindowWidth (view_control_ptr_ v))
       (GetWindowHeight (view_control_ptr_ v)) 1 4)
  = Some di.
Proof.
  unfold depth_images. intros H.
  destruct (read_depth _ _ _) as [d|] eqn:Hd; [|done].
  simpl in H. destruct (convert_depth _ _ _ _ _) as [out|]; [|done].
  simpl in H. injection H as <- <- <-. done.
Qed.

(** X1: in the image a colour capture writes, the three bytes of the pixel in
    line [i] and column [x] are the red, green and blue of the front buffer at
    column [x] and row [height - 1 - i], the front buffer being the one after
    the optional rendering. *)
Theorem colour_capture_pixels {I E} timestamp
  (set_view : ViewControl I E → View I E)
  (draw : ViewControl I E → FrameBuffer) (v : Visualizer I E)
  filename do_render :
  let v' := render_if set_view draw do_render v in
  let w := GetWindowWidth (view_control_ptr_ v') in
  let h := GetWindowHeight (view_control_ptr_ v') in
  ∃ screen_image png_image,
    captures_screen timestamp set_view draw v filename do_render
                    screen_image png_image ∧
    ∀ i x k, (i < h)%nat → (x < w)%nat → (k < 3)%nat →
             data_ png_image !! ((i * w + x) * 3 + k)%nat
             = channel (color_at (front_buffer v') x (h - 1 - i)) k.
Proof.
  intros v' w h.
  destruct (CaptureScreenImage_spec timestamp set_view draw v filename
              do_render)
    as (si & pi & Hcap & _ & _ & _ & _ & Hrows).
  fold v' w h in Hrows.
  exists si, pi. split; [done |].
  intros i x k Hi Hx Hk.
  destruct Hcap as [Hs _].
  destruct (screen_images_staging _ _ _ _ _ _ _ Hs) as [_ Hread].
  fold v' w h in Hread.
  replace ((i * w + x) * 3 + k)%nat with (w * 3 * 1 * i + (x * 3 + k))%nat
    by lia.
  rewrite Hrows by lia.
  assert (Hr : (h - i - 1 < h)%nat) by lia.
  replace (h - 1 - i)%nat with (h - i - 1)%nat by lia.
  generalize dependent (h - i - 1)%nat. intros r Hr.
  replace (w * 3 * 1 * r + (x * 3 + k))%nat
    with ((r * w + x) * 3 + k)%nat by lia.
  by rewrite (glReadPixels_RGB_lookup _ _ _ _ _ _ _ _ _ _ Hread).
Qed.

(** X2: on the default branch, in binary64, the raw depth image holds the
    depth plane of the front buffer, row by row from the bottom; if its
    samples convert, the capture goes through and the sample written at line
    [i] and column [j] is converted from the depth of the front buffer at
    column [j] and row [height - 1 - i]. *)
Theorem depth_capture_pixels {I E} timestamp
  (set_view : Binary64.ViewControl I E → Binary64.View I E)
  (draw : Binary64.ViewControl I E → Binary64.FrameBuffer)
  (v : Binary64.Visualizer I E) filename do_render depth_scale :
  let v' := Binary64.render_if set_view draw do_render v in
  let vc := Binary64.view_control_ptr_ v' in
  let w := Binary64.GetWindowWidth vc in
  let h := Binary64.GetWindowHeight vc in
  ∃ depth_image,
    Binary64.depth_readback set_view draw false v do_render
    = Some (v', depth_image) ∧
    (∀ i j, (i < h)%nat → (j < w)%nat →
            pixel depth_image i j
            = Some (Binary64.depth_at (Binary64.front_buffer v') j i)) ∧
    (Binary64.convertible depth_scale (Binary64.GetZNear vc)
                          (Binary64.GetZFar vc) depth_image →
     ∃ png_image,
       Binary64.captures_depth timestamp set_view draw false v filename
                               do_render depth_scale depth_image png_image ∧
       ∀ i j, (i < h)%nat → (j < w)%nat →
         pixel png_image i j
         = Binary64.converted depth_scale (Binary64.GetZNear vc)
             (Binary64.GetZFar vc)
             (Binary64.depth_at (Binary64.front_buffer v') j (h - 1 - i)) 0).
Proof.
  intros v' vc w h.
  destruct (b64_depth_readback_spec set_view draw false v do_render)
    as (di & Hread & Hsh & Hlen & Hplane); [done |].
  fold v' vc w h in Hsh, Hlen, Hplane.
  exists di. split; [done |]. split; [by apply Hplane |].
  intros Hconv.
  destruct (b64_capture_spec timestamp set_view draw false v filename
              do_render depth_scale di Hread Hsh Hlen Hconv)
    as (png & Hcap & _ & _ & Hpix).
  fold v' vc w h in Hpix.
  exists png. split; [done |].
  intros i j Hi Hj. destruct (Hpix i j Hi Hj) as (d & Hd & Hv).
  rewrite Hplane in Hd by (done || lia). injection Hd as <-.
  replace (h - 1 - i)%nat with (h - i - 1)%nat by lia. done.
Qed.

(** X3: on the [__APPLE__] branch, for a window at least as high as wide, the
    raw depth image holds the depth plane in its rows below [width] and zero
    in the rows from [width] on. *)
Theorem column_readback_rows {I E} timestamp
  (set_view : ViewControl I E → View I E)
  (draw : ViewControl I E → FrameBuffer) (v : Visualizer I E)
  filename do_render depth_scale :
  let v' := render_if set_view draw do_render v in
  let vc := view_control_ptr_ v' in
  let w := GetWindowWidth vc in
  let h := GetWindowHeight vc in
  (w ≤ h)%nat →
  ∃ depth_image png_image,
    captures_depth timestamp set_view draw true v filename do_render
                   depth_scale depth_image png_image ∧
    ∀ i j, (i < h)%nat → (j < w)%nat →
           pixel depth_image i j
           = Some (if decide (i < w)%nat
                   then depth_at (front_buffer v') j i else 0).
Proof.
  intros v' vc w h Hwh.
  destruct (CaptureDepthImage_spec timestamp set_view draw true v filename
              do_render depth_scale)
    as (di & pi & Hcap & _); [done |].
  exists di, pi. split; [done |].
  destruct Hcap as [Hd _].
  destruct (depth_images_staging _ _ _ _ _ _ _ _ _ Hd) as [_ Hread].
  fold v' in Hread. simpl in Hread.
  destruct (render_if_window set_view draw do_render v) as [Hww Hhh].
  fold v' vc w h in Hww, Hhh. rewrite <- Hww, <- Hhh in Hread.
  destruct (read_depth_columns_spec (front_buffer v')
              (PrepareImage (0 : Q) w h 1 4))
    as (out & Ho & _ & _ & Hplane).
  { done. }
  { rewrite PrepareImage_length. simpl. lia. }
  rewrite Ho in Hread. injection Hread as ->. exact Hplane.
Qed.

(** X4: on a square window the depth capture of the [__APPLE__] branch
    returns what the default branch returns. *)
Theorem column_readback_square {I E} timestamp
  (set_view : ViewControl I E → View I E)
  (draw : ViewControl I E → FrameBuffer) (v : Visualizer I E)
  filename do_render depth_scale :
  GetWindowWidth (view_control_ptr_ v) = GetWindowHeight (view_control_ptr_ v) →
  CaptureDepthImage timestamp set_view draw true v filename do_render
                    depth_scale
  = CaptureDepthImage timestamp set_view draw false v filename do_render
                      depth_scale.
Proof.
  intros Hsq. rewrite !CaptureDepthImage_unfold. f_equal.
  unfold depth_images.
  destruct (read_depth_square
              (front_buffer (render_if set_view draw do_render v))
              (PrepareImage (0 : Q) (GetWindowWidth (view_control_ptr_ v))
                 (GetWindowHeight (view_control_ptr_ v)) 1 4))
    as (out & Ha & Hb).
  { done. }
  { rewrite PrepareImage_length. simpl. lia. }
  by rewrite Ha, Hb.
Qed.

Lemma read_depth_columns_overrun fb (depth_image : Image Q) :
  (height_ depth_image < width_ depth_image)%nat →
  read_depth_columns fb depth_image = None.
Proof.
  intros Hlt. unfold read_depth_columns, for_loop.
  destruct (width_ depth_image) as [|w] eqn:Hw; [lia |].
  simpl. unfold glReadPixels_DEPTH, write_pixels.
  rewrite decide_False; [done |].
  rewrite (length_read_block _ 1) by done. rewrite length_replicate, Hw. lia.
Qed.

(** X5: on the [__APPLE__] branch, for a window wider than high, the first
    column transfer is asked to write [width] samples into [float_buffer],
    which has [height] elements, and the source does not check for it: a
    write past the end of the buffer, which is undefined in C++ and the error
    result here. *)
Theorem column_readback_overruns {I E} timestamp
  (set_view : ViewControl I E → View I E)
  (draw : ViewControl I E → FrameBuffer) (v : Visualizer I E)
  filename do_render depth_scale :
  (GetWindowHeight (view_control_ptr_ v)
   < GetWindowWidth (view_control_ptr_ v))%nat →
  CaptureDepthImage timestamp set_view draw true v filename do_render
                    depth_scale = None.
Proof.
  intros Hlt. rewrite CaptureDepthImage_unfold. unfold depth_images, read_depth.
  rewrite read_depth_columns_overrun; done.
Qed.

(** ** The visualizer after a capture *)

(** X12: a capture called without rendering returns the visualizer as it was;
    a capture called with rendering returns it with the redraw flag cleared,
    the window size kept, the view [SetViewMatrices] computed and the front
    buffer the renderers drew for it. *)
Theorem capture_visualizer_state {I E} timestamp
  (set_view : ViewControl I E → View I E)
  (draw : ViewControl I E → FrameBuffer) apple (v : Visualizer I E)
  filename depth_scale :
  let vc := view_control_ptr_ v in
  let rendered :=
    mkViewControl (GetWindowWidth vc) (GetWindowHeight vc) (set_view vc) in
  (apple = true → (GetWindowWidth vc ≤ GetWindowHeight vc)%nat) →
  (∃ fs fd,
     CaptureScreenImage timestamp set_view draw v filename false
     = Some (v, fs) ∧
     CaptureDepthImage timestamp set_view draw apple v filename false
                       depth_scale
     = Some (v, fd)) ∧
  (∃ fs fd,
     CaptureScreenImage timestamp set_view draw v filename true
     = Some (mkVisualizer rendered false (draw rendered), fs) ∧
     CaptureDepthImage timestamp set_view draw apple v filename true
                       depth_scale
     = Some (mkVisualizer rendered false (draw rendered), fd)).
Proof.
  intros vc rendered Ha. split.
  - destruct (CaptureScreenImage_spec timestamp set_view draw v filename false)
      as (si & spng & [_ (n & r & Hs)] & _).
    destruct (CaptureDepthImage_spec timestamp set_view draw apple v filename
                false depth_scale Ha)
      as (di & dpng & [_ (n' & r' & Hd)] & _).
    eauto.
  - destruct (CaptureScreenImage_spec timestamp set_view draw v filename true)
      as (si & spng & [_ (n & r & Hs)] & _).
    destruct (CaptureDepthImage_spec timestamp set_view draw apple v filename
                true depth_scale Ha)
      as (di & dpng & [_ (n' & r' & Hd)] & _).
    eauto.
Qed.

Lemma screen_images_stale {I E} sv draw reset (v : Visualizer I E) :
  (λ p, p.2) <$> screen_images sv draw (ResetViewPoint reset v) false
  = (λ p, p.2) <$> screen_images sv draw v false.
Proof.
  unfold screen_images. simpl.
  destruct (glReadPixels_RGB _ _ _ _ _ _) as [d|]; [|done]. simpl.
  destruct (flip_rows _ _) as [out|]; done.
Qed.

(** X13: after [ResetViewPoint] a colour capture called without rendering
    writes the image it would have written before the reset, under the same
    name, and leaves the redraw flag set; called with rendering it clears the
    flag. *)
Theorem capture_after_reset {I E} timestamp
  (set_view : ViewControl I E → View I E)
  (draw : ViewControl I E → FrameBuffer)
  (reset : ViewControl I E → View I E) (v : Visualizer I E) filename :
  (λ r, written_images r.2)
    <$> CaptureScreenImage timestamp set_view draw (ResetViewPoint reset v)
                           filename false
  = (λ r, written_images r.2)
      <$> CaptureScreenImage timestamp set_view draw v filename false ∧
  (λ r, is_redraw_required_ r.1)
    <$> CaptureScreenImage timestamp set_view draw (ResetViewPoint reset v)
                           filename false
  = Some true ∧
  (λ r, is_redraw_required_ r.1)
    <$> CaptureScreenImage timestamp set_view draw (ResetViewPoint reset v)
                           filename true
  = Some false.
Proof.
  split; [|split].
  - rewrite !CaptureScreenImage_unfold.
    pose proof (screen_images_stale set_view draw reset v) as Hst.
    destruct (screen_images set_view draw (ResetViewPoint reset v) false)
      as [[[a b] c]|];
      destruct (screen_images set_view draw v false) as [[[a' b'] c']|];
      simpl in *; try done.
    injection Hst as ->. f_equal. unfold written_images, write_camera.
    simpl. f_equal.
    destruct (negb _); [|done].
    by destruct (ConvertToPinholeCameraParameters _),
                (ConvertToPinholeCameraParameters _).
  - destruct (CaptureScreenImage_spec timestamp set_view draw
                (ResetViewPoint reset v) filename false)
      as (si & spng & [_ (n & r & Hc)] & _). by rewrite Hc.
  - destruct (CaptureScreenImage_spec timestamp set_view draw
                (ResetViewPoint reset v) filename true)
      as (si & spng & [_ (n & r & Hc)] & _). by rewrite Hc.
Qed.

(** X14: for a window without pixels (width or height zero) the colour capture
    and the depth capture of the default branch go through and write images
    with empty buffers. *)
Theorem capture_of_empty_window {I E} timestamp
  (set_view : ViewControl I E → View I E)
  (draw : ViewControl I E → FrameBuffer) (v : Visualizer I E)
  filename do_render depth_scale :
  GetWindowWidth (view_control_ptr_ v) = O ∨
  GetWindowHeight (view_control_ptr_ v) = O →
  ∃ screen_image screen_png depth_image depth_png,
    captures_screen timestamp set_view draw v filename do_render
                    screen_image screen_png ∧
    captures_depth timestamp set_view draw false v filename do_render
                   depth_scale depth_image depth_png ∧
    data_ screen_png = [] ∧ data_ depth_png = [].
Proof.
  intros Hz.
  destruct (render_if_window set_view draw do_render v) as [Hw Hh].
  destruct (CaptureScreenImage_spec timestamp set_view draw v filename
              do_render)
    as (si & sp & Hs & _ & _ & _ & Hsl & _).
  destruct (CaptureDepthImage_spec timestamp set_view draw false v filename
              do_render depth_scale)
    as (di & dp & Hd & _ & _ & _ & Hdl & _); [done |].
  rewrite Hw, Hh in Hsl, Hdl.
  exists si, sp, di, dp. split; [done |]. split; [done |].
  split; apply nil_length_inv; destruct Hz as [Hz|Hz]; rewrite Hz in *; lia.
Qed.

(** ** Instances of the further properties *)

Lemma colour_capture_pixels_witness :
  ∃ screen_image png_image,
    captures_screen "T" example_matrices example_draw example_visualizer ""
                    true screen_image png_image ∧
    data_ png_image !! 4%nat = Some 1%Z.
Proof.
  destruct (colour_capture_pixels "T" example_matrices example_draw
              example_visualizer "" true)
    as (si & pi & Hcap & Hpix).
  exists si, pi. split; [exact Hcap |].
  apply (Hpix 0 1 1)%nat; simpl; lia.
Defined.

Lemma depth_capture_pixels_witness :
  ∃ depth_image png_image,
    Binary64.captures_depth "T" Binary64.example_matrices Binary64.example_draw
      false Binary64.example_visualizer "" true 100%float
      depth_image png_image ∧
    pixel depth_image 0 1 = Some 0.5%float ∧
    pixel png_image 0 1 = Some 127%Z.
Proof.
  destruct (depth_capture_pixels "T" Binary64.example_matrices
              Binary64.example_draw Binary64.example_visualizer "" true
              100%float)
    as (di & Hread & Hplane & Hpng).
  destruct Hpng as (pi & Hcap & Hpix).
  { vm_compute in Hread. injection Hread as <-.
    repeat constructor; vm_compute; eauto. }
  exists di, pi. split; [exact Hcap |]. split.
  - apply (Hplane 0 1)%nat; simpl; lia.
  - apply (Hpix 0 1)%nat; simpl; lia.
Defined.

Lemma column_readback_rows_witness :
  ∃ depth_image png_image,
    captures_depth "T" example_matrices tall_draw true tall_visualizer
                   "" true 1000 depth_image png_image ∧
    pixel depth_image 0 0 = Some (1 # 4) ∧
    pixel depth_image 1 0 = Some 0.
Proof.
  destruct (column_readback_rows "T" example_matrices tall_draw
              tall_visualizer "" true 1000)
    as (di & pi & Hcap & Hpix).
  { simpl. lia. }
  exists di, pi. split; [exact Hcap |]. split.
  - apply (Hpix 0 0)%nat; simpl; lia.
  - apply (Hpix 1 0)%nat; simpl; lia.
Defined.

Lemma column_readback_square_witness :
  CaptureDepthImage "T" example_matrices example_draw true example_visualizer
                    "" true 1000
  = CaptureDepthImage "T" example_matrices example_draw false
                      example_visualizer "" true 1000.
Proof. apply column_readback_square. reflexivity. Defined.

Lemma column_readback_overruns_witness :
  CaptureDepthImage "T" example_matrices example_draw true wide_visualizer
                    "" true 1000
  = None.
Proof. apply column_readback_overruns. simpl. lia. Defined.

Lemma quantize_clamps_within_uint16_witness :
  Depth.quantize 1000 (1 # 5) = Depth.round (1000 * (1 # 5)) ∧
  Depth.quantize 1000 40 = 32767%Z.
Proof.
  split.
  - apply (proj1 (quantize_clamps_within_uint16 1000 (1 # 5))).
    change (Depth.round (1000 * (1 # 5))) with 200%Z. lia.
  - apply (proj2 (quantize_clamps_within_uint16 1000 40)).
    change (Depth.round (1000 * 40)) with 40000%Z. lia.
Defined.

Lemma capture_visualizer_state_witness :
  ∃ fs fd,
    CaptureScreenImage "T" example_matrices example_draw example_visualizer
                       "" false
    = Some (example_visualizer, fs) ∧
    CaptureDepthImage "T" example_matrices example_draw false
                      example_visualizer "" false 1000
    = Some (example_visualizer, fd).
Proof.
  apply (capture_visualizer_state "T" example_matrices example_draw false
           example_visualizer "" 1000).
  discriminate.
Defined.

Lemma capture_of_empty_window_witness :
  ∃ screen_image screen_png depth_image depth_png,
    captures_screen "T" example_matrices example_draw empty_visualizer ""
                    true screen_image screen_png ∧
    captures_depth "T" example_matrices example_draw false empty_visualizer
                   "" true 1000 depth_image depth_png ∧
    data_ screen_png = [] ∧ data_ depth_png = [].
Proof.
  apply (capture_of_empty_window "T" example_matrices example_draw
           empty_visualizer "" true 1000).
  left. reflexivity.
Defined.

(** ** A second capture without rendering *)

Lemma screen_images_again {I E} sv draw (v : Visualizer I E) do_render
  v' si pi :
  screen_images sv draw v do_render = Some (v', si, pi) →
  screen_images sv draw v' false = Some (v', si, pi).
Proof.
  intros H.
  destruct (screen_images_staging _ _ _ _ _ _ _ H) as [-> _].
  revert H. unfold screen_images.
  destruct (render_if_window sv draw do_render v) as [Hw Hh].
  cbn [render_if]. by rewrite Hw, Hh.
Qed.

Lemma depth_images_again {I E} sv draw apple (v : Visualizer I E) do_render
  depth_scale v' di pi :
  depth_images sv draw apple v do_render depth_scale = Some (v', di, pi) →
  depth_images sv draw apple v' false depth_scale = Some (v', di, pi).
Proof.
  intros H.
  destruct (depth_images_staging _ _ _ _ _ _ _ _ _ H) as [-> _].
  revert H. unfold depth_images.
  destruct (render_if_window sv draw do_render v) as [Hw Hh].
  cbn [render_if]. by rewrite Hw, Hh.
Qed.

Lemma written_images_capture {I E} name img camera (v : Visualizer I E) :
  (written_images (WriteImage name img :: write_camera camera v)).*2 = [img].
Proof.
  unfold write_camera. destruct (negb _); [|done].
  by destruct (ConvertToPinholeCameraParameters _).
Qed.

(** X15: a capture followed by a capture without rendering, of the visualizer
    the first one returns, writes the same image twice and returns the same
    visualizer, whatever the two time stamps are; if the first capture fails
    so does the pair. *)
Theorem capture_again_without_render {I E} t1 t2
  (set_view : ViewControl I E → View I E)
  (draw : ViewControl I E → FrameBuffer) apple (v : Visualizer I E)
  filename do_render depth_scale :
  (λ r, (r.1, (written_images r.2).*2))
    <$> (p ← CaptureScreenImage t1 set_view draw v filename do_render;
         CaptureScreenImage t2 set_view draw p.1 filename false)
  = (λ r, (r.1, (written_images r.2).*2))
      <$> CaptureScreenImage t1 set_view draw v filename do_render ∧
  (λ r, (r.1, (written_images r.2).*2))
    <$> (p ← CaptureDepthImage t1 set_view draw apple v filename do_render
                               depth_scale;
         CaptureDepthImage t2 set_view draw apple p.1 filename false
                           depth_scale)
  = (λ r, (r.1, (written_images r.2).*2))
      <$> CaptureDepthImage t1 set_view draw apple v filename do_render
                            depth_scale.
Proof.
  split.
  - rewrite (CaptureScreenImage_unfold t1).
    destruct (screen_images set_view draw v do_render)
      as [[[v' si] pi]|] eqn:Hs; [|done].
    cbn [mbind option_bind fst snd].
    rewrite (CaptureScreenImage_unfold t2),
            (screen_images_again _ _ _ _ _ _ _ Hs).
    cbn [mbind option_bind fmap option_fmap option_map fst snd].
    by rewrite !written_images_capture.
  - rewrite (CaptureDepthImage_unfold t1).
    destruct (depth_images set_view draw apple v do_render depth_scale)
      as [[[v' di] pi]|] eqn:Hd; [|done].
    cbn [mbind option_bind fst snd].
    rewrite (CaptureDepthImage_unfold t2),
            (depth_images_again _ _ _ _ _ _ _ _ _ Hd).
    cbn [mbind option_bind fmap option_fmap option_map fst snd].
    by rewrite !written_images_capture.
Qed.

(** ** The two embeddings side by side *)

(** With clip distances 0.75 and 4.25, raw depth one half and depth scale 100
    the exact depth is 51/40 and the exact sample 128; the binary64 depth is
    a little below 51/40 and the sample written is 127. *)
Lemma rounding_changes_the_sample :
  Depth.z_depth (3 # 4) (17 # 4) (1 # 2) == 51 # 40 ∧
  Depth.quantize 100 (Depth.z_depth (3 # 4) (17 # 4) (1 # 2)) = 128%Z ∧
  (∃ q, Binary64.to_Q (Binary64.z_depth 0.75 4.25 0.5) = Some q ∧
        q < 51 # 40) ∧
  Binary64.quantize 100 (Binary64.z_depth 0.75 4.25 0.5) = Some 127%Z.
Proof.
  split; [reflexivity |]. split; [reflexivity |]. split.
  - eexists. split; [vm_compute; reflexivity | reflexivity].
  - vm_compute. reflexivity.
Qed.
